(** * DoctorDiscovery: the filter / sort / suggestion view-model and its URL sync

    A shallow embedding of the logic of [src/components/DoctorDiscovery.tsx]:
    the [useState] initialisers that read the query string, the effect that
    writes it back, the [filteredDoctors] and [suggestions] memos and the
    specialty chip handler.

    Modelling choices.
    - A JavaScript string is a [string]: a sequence of code units in the range
      0..255 (the Latin-1 part of UTF-16).  [toLowerCase] is exact on that
      range.
    - A JavaScript number is [option Z]: [None] is NaN, [Some n] the integer
      [n].  The code computes with doubles: [parseInt] rounds the integer it
      reads to the nearest double and the comparators subtract doubles.  The
      model is exact on the safe integers, from -(2^53 - 1) to 2^53 - 1
      ([safeInteger]), where a double holds every integer and the difference
      of two of them keeps its sign; outside that range it is not, so every
      statement that reads a parsed value is made for safe integers only.
    - [null] / [undefined] results are [None] of an [option].
    - A [URLSearchParams] object is its list of (name, value) entries, in
      order, duplicates included; the router serialises and parses that list
      and hands it back through [useSearchParams]. *)

From Stdlib Require Import List String Ascii ZArith NArith Lia Bool.
From Stdlib Require Import Permutation Sorted.
Import ListNotations.
Open Scope string_scope.

(** ** The JavaScript built-ins the component calls *)

Module JS.

(** ToBoolean on a string: only the empty string is falsy. *)
Definition truthy (s : string) : bool :=
  match s with
  | EmptyString => false
  | String _ _ => true
  end.

(** [x || ''] for [x : string | null]. *)
Definition orEmpty (x : option string) : string :=
  match x with
  | Some s => if truthy s then s else ""
  | None => ""
  end.

(** Lower-case mapping of one code unit below 256: A-Z, and U+00C0..U+00DE
    without the multiplication sign U+00D7, move up by 32. *)
Definition lowerChar (c : ascii) : ascii :=
  let n := N_of_ascii c in
  if ((65 <=? n) && (n <=? 90)
      || (192 <=? n) && (n <=? 222) && negb (n =? 215))%N
  then ascii_of_N (n + 32)
  else c.

(** String.prototype.toLowerCase *)
Fixpoint toLowerCase (s : string) : string :=
  match s with
  | EmptyString => EmptyString
  | String c s' => String (lowerChar c) (toLowerCase s')
  end.

(** String.prototype.includes: [search] occurs in [s] at some position. *)
Fixpoint includes (s search : string) : bool :=
  prefix search s
  || match s with
     | EmptyString => false
     | String _ s' => includes s' search
     end.

(** String.prototype.split with a one-code-unit separator.  The result is
    never empty: splitting the empty string gives one empty segment. *)
Fixpoint split (sep : ascii) (s : string) : list string :=
  match s with
  | EmptyString => [EmptyString]
  | String c s' =>
      if Ascii.eqb c sep then EmptyString :: split sep s'
      else match split sep s' with
           | w :: ws => String c w :: ws
           | [] => [String c EmptyString]
           end
  end.

(** Array.prototype.join *)
Definition join (sep : string) (l : list string) : string :=
  String.concat sep l.

(** Array.prototype.includes on an array of strings. *)
Definition arrayIncludes (l : list string) (x : string) : bool :=
  existsb (String.eqb x) l.

(** Numbers: an integer or NaN.  Exact for the safe integers of a double;
    above 2^53 in magnitude the code rounds and this type does not. *)
Definition number := option Z.

Definition sub (a b : number) : number :=
  match a, b with
  | Some x, Some y => Some (x - y)%Z
  | _, _ => None
  end.

(** WhiteSpace and LineTerminator code units below 256. *)
Definition isWhiteSpace (c : ascii) : bool :=
  let n := N_of_ascii c in
  ((9 <=? n) && (n <=? 13) || (n =? 32) || (n =? 160))%N.

Fixpoint trimStart (s : string) : string :=
  match s with
  | EmptyString => EmptyString
  | String c s' => if isWhiteSpace c then trimStart s' else s
  end.

(** Value of a code unit as a digit: 0-9, then a-z / A-Z as 10..35. *)
Definition digitValue (c : ascii) : option Z :=
  let n := Z.of_N (N_of_ascii c) in
  if ((48 <=? n) && (n <=? 57))%Z then Some (n - 48)%Z
  else if ((97 <=? n) && (n <=? 122))%Z then Some (n - 87)%Z
  else if ((65 <=? n) && (n <=? 90))%Z then Some (n - 55)%Z
  else None.

(** The integer written by the longest prefix of radix-[R] digits of [s],
    continuing from [acc]; [acc = None] while no digit has been read. *)
Fixpoint digits (R : Z) (s : string) (acc : option Z) : option Z :=
  match s with
  | EmptyString => acc
  | String c s' =>
      match digitValue c with
      | Some d =>
          if (d <? R)%Z
          then digits R s' (Some (match acc with
                                  | Some a => a * R + d
                                  | None => d
                                  end)%Z)
          else acc
      | None => acc
      end
  end.

(** parseInt(string) with no radix argument: leading white space is
    skipped, then a sign, then a 0x / 0X prefix selects radix 16; the
    longest run of digits is read and NaN returned when it is empty. *)
Definition parseInt (s : string) : number :=
  let str := trimStart s in
  let '(sign, str) :=
    match str with
    | String "-" r => ((-1)%Z, r)
    | String "+" r => (1%Z, r)
    | _ => (1%Z, str)
    end in
  let '(R, str) :=
    match str with
    | String "0" (String "x" r) => (16%Z, r)
    | String "0" (String "X" r) => (16%Z, r)
    | _ => (10%Z, str)
    end in
  option_map (Z.mul sign) (digits R str None).

(** Array.prototype.sort(comparefn).  SortCompare reads a NaN from the
    comparator as +0.  The language fixes the result only for a consistent
    comparator, where the sort must be stable; the algorithm here is a stable
    insertion sort: each element, taken in array order, goes in front of the
    first element it compares strictly below.  [sort_unique] below shows that
    under a comparator that is the difference of a key every stable sort
    returns the same array. *)
Section Sort.
Context {A : Type} (comparefn : A -> A -> number).

Definition SortCompare (x y : A) : Z :=
  match comparefn x y with
  | Some v => v
  | None => 0%Z
  end.

Fixpoint insert (x : A) (l : list A) : list A :=
  match l with
  | [] => [x]
  | y :: l' =>
      if (SortCompare x y <? 0)%Z then x :: l else y :: insert x l'
  end.

Definition sort (l : list A) : list A :=
  fold_left (fun acc x => insert x acc) l [].
End Sort.

End JS.

(** ** URLSearchParams *)

Module URLSearchParams.

Definition t := list (string * string).

(** new URLSearchParams() *)
Definition empty : t := [].

(** get(name): the value of the first entry called [name], or null. *)
Fixpoint get (p : t) (name : string) : option string :=
  match p with
  | [] => None
  | (k, v) :: p' => if String.eqb k name then Some v else get p' name
  end.

Definition has (p : t) (name : string) : bool :=
  existsb (fun e => String.eqb (fst e) name) p.

Definition remove (p : t) (name : string) : t :=
  filter (fun e => negb (String.eqb (fst e) name)) p.

(** The first entry called [name] takes [value], the later ones go. *)
Fixpoint replaceFirst (p : t) (name value : string) : t :=
  match p with
  | [] => []
  | (k, v) :: p' =>
      if String.eqb k name then (k, value) :: remove p' name
      else (k, v) :: replaceFirst p' name value
  end.

(** set(name, value) *)
Definition set (p : t) (name value : string) : t :=
  if has p name then replaceFirst p name value
  else (p ++ [(name, value)])%list.

End URLSearchParams.

(** ** The data model of the component *)

Module Specialty.
Record t := mk { name : string }.
End Specialty.

Module Address.
Record t := mk {
  locality : string;
  city : string;
  address_line1 : string;
  location : string;
  logo_url : string
}.
End Address.

Module Clinic.
Record t := mk {
  name : string;
  address : Address.t
}.
End Clinic.

Module Doctor.
Record t := mk {
  id : string;
  name : string;
  name_initials : string;
  photo : string;
  doctor_introduction : string;
  specialities : list Specialty.t;
  fees : string;
  experience : string;
  languages : list string;
  clinic : Clinic.t;
  video_consult : bool;
  in_clinic : bool
}.
End Doctor.

Module DoctorSuggestion.
Record t := mk {
  id : string;
  name : string;
  specialities : list Specialty.t;
  photo : string
}.
End DoctorSuggestion.

(** The four pieces of [useState] that make the filter state.  The fields
    [consultationType] and [sortBy] are typed as string unions in the source,
    but the initialisers only cast what the query string holds, so at run
    time they are arbitrary strings. *)
Record FilterState := mkFilterState {
  nameFilter : string;
  consultationType : string;
  selectedSpecialties : list string;
  sortBy : string
}.

(** ** Hydration: the [useState] initialisers *)

Definition hydrate (searchParams : URLSearchParams.t) : FilterState :=
  {| nameFilter := JS.orEmpty (URLSearchParams.get searchParams "name");
     consultationType :=
       JS.orEmpty (URLSearchParams.get searchParams "consultationType");
     selectedSpecialties :=
       match URLSearchParams.get searchParams "specialties" with
       | Some v => JS.split "," v
       | None => []
       end;
     sortBy := JS.orEmpty (URLSearchParams.get searchParams "sortBy") |}.

(** ** Persistence: the effect that rebuilds the query string *)

Definition persist (st : FilterState) : URLSearchParams.t :=
  let params := URLSearchParams.empty in
  let params :=
    if JS.truthy (nameFilter st)
    then URLSearchParams.set params "name" (nameFilter st) else params in
  let params :=
    if JS.truthy (consultationType st)
    then URLSearchParams.set params "consultationType" (consultationType st)
    else params in
  let params :=
    if (0 <? List.length (selectedSpecialties st))%nat
    then URLSearchParams.set params "specialties"
           (JS.join "," (selectedSpecialties st))
    else params in
  let params :=
    if JS.truthy (sortBy st)
    then URLSearchParams.set params "sortBy" (sortBy st) else params in
  params.

(** ** The filtered and sorted view *)

Definition nameMatches (q : string) (doctor : Doctor.t) : bool :=
  JS.includes (JS.toLowerCase (Doctor.name doctor)) (JS.toLowerCase q).

Definition hasSelectedSpecialty (selected : list string) (doctor : Doctor.t)
  : bool :=
  existsb (fun specialty => JS.arrayIncludes selected (Specialty.name specialty))
    (Doctor.specialities doctor).

Definition byFees (a b : Doctor.t) : JS.number :=
  JS.sub (JS.parseInt (Doctor.fees a)) (JS.parseInt (Doctor.fees b)).

Definition byExperience (a b : Doctor.t) : JS.number :=
  JS.sub (JS.parseInt (Doctor.experience b))
         (JS.parseInt (Doctor.experience a)).

Definition filteredDoctors (doctors : list Doctor.t) (st : FilterState)
  : list Doctor.t :=
  let result := doctors in
  (* Apply name filter *)
  let result :=
    if JS.truthy (nameFilter st)
    then filter (nameMatches (nameFilter st)) result
    else result in
  (* Apply consultation type filter *)
  let result :=
    if String.eqb (consultationType st) "video"
    then filter Doctor.video_consult result
    else if String.eqb (consultationType st) "clinic"
    then filter Doctor.in_clinic result
    else result in
  (* Apply specialties filter *)
  let result :=
    if (0 <? List.length (selectedSpecialties st))%nat
    then filter (hasSelectedSpecialty (selectedSpecialties st)) result
    else result in
  (* Apply sorting *)
  let result :=
    if String.eqb (sortBy st) "fees" then JS.sort byFees result
    else if String.eqb (sortBy st) "experience"
    then JS.sort byExperience result
    else result in
  result.

(** ** Autocomplete suggestions *)

Definition toSuggestion (doctor : Doctor.t) : DoctorSuggestion.t :=
  {| DoctorSuggestion.id := Doctor.id doctor;
     DoctorSuggestion.name := Doctor.name doctor;
     DoctorSuggestion.specialities := Doctor.specialities doctor;
     DoctorSuggestion.photo := Doctor.photo doctor |}.

Definition specialtyMatches (q : string) (doctor : Doctor.t) : bool :=
  existsb (fun specialty =>
             JS.includes (JS.toLowerCase (Specialty.name specialty))
                         (JS.toLowerCase q))
    (Doctor.specialities doctor).

Definition suggestions (doctors : list Doctor.t) (nameFilter : string)
  : list DoctorSuggestion.t :=
  if negb (JS.truthy nameFilter) then []
  else firstn 5 (map toSuggestion
                   (filter (fun doctor => nameMatches nameFilter doctor
                                          || specialtyMatches nameFilter doctor)
                      doctors)).

(** ** The specialty chip handler *)

Definition toggleSpecialty (selectedSpecialties : list string)
  (specialty : string) : list string :=
  if JS.arrayIncludes selectedSpecialties specialty
  then filter (fun s => negb (String.eqb s specialty)) selectedSpecialties
  else (selectedSpecialties ++ [specialty])%list.

Definition clickChip (st : FilterState) (specialty : string) : FilterState :=
  {| nameFilter := nameFilter st;
     consultationType := consultationType st;
     selectedSpecialties := toggleSpecialty (selectedSpecialties st) specialty;
     sortBy := sortBy st |}.

(** The [useState] setters of the radio group and of the sort select. *)
Definition setConsultationType (st : FilterState) (value : string)
  : FilterState :=
  {| nameFilter := nameFilter st;
     consultationType := value;
     selectedSpecialties := selectedSpecialties st;
     sortBy := sortBy st |}.

Definition setSortBy (st : FilterState) (value : string) : FilterState :=
  {| nameFilter := nameFilter st;
     consultationType := consultationType st;
     selectedSpecialties := selectedSpecialties st;
     sortBy := value |}.

(** ** The predicates and reducers in the words of the specification *)

Module Spec.

(** [q] occurs in [s] when letter case is ignored: some substring of [s]
    has the same lower-case form as [q]. *)
Definition containsIgnoringCase (s q : string) : Prop :=
  exists a q' b, s = a ++ q' ++ b /\ JS.toLowerCase q' = JS.toLowerCase q.

Definition matchesName (record : Doctor.t) (query : string) : bool :=
  JS.includes (JS.toLowerCase (Doctor.name record)) (JS.toLowerCase query).

Definition matchesConsultationType (record : Doctor.t) (type : string)
  : bool :=
  if String.eqb type "video" then Doctor.video_consult record
  else if String.eqb type "clinic" then Doctor.in_clinic record
  else true.

Definition matchesSpecialties (record : Doctor.t) (selected : list string)
  : bool :=
  match selected with
  | [] => true
  | _ :: _ =>
      existsb (fun specialty =>
                 existsb (String.eqb (Specialty.name specialty)) selected)
        (Doctor.specialities record)
  end.

(** The conjunction over the three filter dimensions. *)
Definition matchesAll (st : FilterState) (record : Doctor.t) : bool :=
  matchesName record (nameFilter st)
  && matchesConsultationType record (consultationType st)
  && matchesSpecialties record (selectedSpecialties st).

(** Name match OR some specialty name containing the query ignoring case. *)
Definition suggestMatch (query : string) (record : Doctor.t) : bool :=
  matchesName record query
  || existsb (fun specialty =>
                JS.includes (JS.toLowerCase (Specialty.name specialty))
                            (JS.toLowerCase query))
       (Doctor.specialities record).

(** A suggestion entry carries a record: it has the record's id, name,
    specialties and photo, which are all the fields an entry has. *)
Definition carries (entry : DoctorSuggestion.t) (record : Doctor.t) : Prop :=
  DoctorSuggestion.id entry = Doctor.id record
  /\ DoctorSuggestion.name entry = Doctor.name record
  /\ DoctorSuggestion.specialities entry = Doctor.specialities record
  /\ DoctorSuggestion.photo entry = Doctor.photo record.

(** The suggestion deriver: nothing for the empty query, otherwise the
    first [limit] matches in store order. *)
Definition suggest (records : list Doctor.t) (query : string) (limit : nat)
  : list Doctor.t :=
  match query with
  | EmptyString => []
  | String _ _ => firstn limit (filter (suggestMatch query) records)
  end.

(** The comparator of the sort key, when there is one. *)
Definition order (sortKey : string) (kept : list Doctor.t) : list Doctor.t :=
  if String.eqb sortKey "fees" then JS.sort byFees kept
  else if String.eqb sortKey "experience" then JS.sort byExperience kept
  else kept.

(** The view reducer: the conjunction of the predicates over the store,
    then the order of the sort key. *)
Definition reduce (records : list Doctor.t) (st : FilterState)
  : list Doctor.t :=
  order (sortBy st) (filter (matchesAll st) records).

(** Ascending by parsed fee, descending by parsed experience; both relate
    only records whose field parses to a number. *)
Definition feeAscending (a b : Doctor.t) : Prop :=
  exists x y, JS.parseInt (Doctor.fees a) = Some x
              /\ JS.parseInt (Doctor.fees b) = Some y /\ (x <= y)%Z.

Definition experienceDescending (a b : Doctor.t) : Prop :=
  exists x y, JS.parseInt (Doctor.experience a) = Some x
              /\ JS.parseInt (Doctor.experience b) = Some y /\ (y <= x)%Z.

End Spec.

(** ** Sample data *)

(** A record with the fields the view-model reads, every other one blank. *)
Definition sampleDoctor (name : string) (specialities : list string)
  (fees experience : string) (video_consult in_clinic : bool) : Doctor.t :=
  {| Doctor.id := name;
     Doctor.name := name;
     Doctor.name_initials := "";
     Doctor.photo := "";
     Doctor.doctor_introduction := "";
     Doctor.specialities := map Specialty.mk specialities;
     Doctor.fees := fees;
     Doctor.experience := experience;
     Doctor.languages := [];
     Doctor.clinic :=
       {| Clinic.name := "";
          Clinic.address := Address.mk "" "" "" "" "" |};
     Doctor.video_consult := video_consult;
     Doctor.in_clinic := in_clinic |}.

(** Three records with fees 500, 200, 800 and experience 5, 20, 1. *)
Definition sampleStore : list Doctor.t :=
  [ sampleDoctor "Dr. Asha Rao" ["Dentist"] "500" "5" true false;
    sampleDoctor "Dr. Bela Iyer" ["Cardiologist"; "Dentist"] "200" "20"
      false true;
    sampleDoctor "Dr. Chetan Das" [] "800" "1" true true ].

Definition defaultState : FilterState :=
  {| nameFilter := ""; consultationType := "";
     selectedSpecialties := []; sortBy := "" |}.

Definition sampleState : FilterState :=
  {| nameFilter := "dr"; consultationType := "video";
     selectedSpecialties := ["Dentist"]; sortBy := "" |}.

Definition sortedByFees : FilterState :=
  {| nameFilter := ""; consultationType := "";
     selectedSpecialties := []; sortBy := "fees" |}.

Definition sortedByExperience : FilterState :=
  {| nameFilter := ""; consultationType := "";
     selectedSpecialties := []; sortBy := "experience" |}.

(** A specialty whose name holds a comma, selected on its own, and a store
    with one record of specialty [Ear]. *)
Definition commaState : FilterState :=
  {| nameFilter := ""; consultationType := "";
     selectedSpecialties := ["Ear, Nose and Throat"]; sortBy := "" |}.

Definition earStore : list Doctor.t :=
  [ sampleDoctor "Dr. Esha Nair" ["Ear"] "300" "7" true true ].

(** No comma among the code units of [s]. *)
Definition commaFree (s : string) : Prop :=
  JS.includes s "," = false.

(** Three records of which the first and the last have the same fee and
    the same experience. *)
Definition tieStore : list Doctor.t :=
  [ sampleDoctor "Dr. Asha Rao" ["Dentist"] "300" "9" true false;
    sampleDoctor "Dr. Bela Iyer" ["Dentist"] "100" "12" false true;
    sampleDoctor "Dr. Chetan Das" ["Dentist"] "300" "9" true true ].

(** The integers a double holds exactly, Number.isSafeInteger: on them
    [JS.parseInt] and the sign of [JS.sub] are those of the code. *)
Definition safeInteger (n : Z) : Prop :=
  (- (2 ^ 53 - 1) <= n <= 2 ^ 53 - 1)%Z.

(** A field that parses, and to a safe integer. *)
Definition safeNumber (s : string) : Prop :=
  exists n, JS.parseInt s = Some n /\ safeInteger n.

(** The numeric reading of a field, 0 standing in for NaN. *)
Definition numberOr0 (s : string) : Z :=
  match JS.parseInt s with
  | Some n => n
  | None => 0%Z
  end.

(** ** The rest of the component: chips, autocomplete handler, test ids *)

(** Set<string>: the members in insertion order; [add] of a member is a
    no-op.  [Array.from] lists them in that order. *)
Module StringSet.

Definition t := list string.

Definition empty : t := [].

Definition add (s : t) (value : string) : t :=
  if JS.arrayIncludes s value then s else (s ++ [value])%list.

Definition toArray (s : t) : list string := s.

End StringSet.

(** The [specialties] memo: every specialty name of every doctor, added to
    one set by the two nested [forEach] loops. *)
Definition specialties (doctors : list Doctor.t) : list string :=
  let uniqueSpecialties := StringSet.empty in
  let uniqueSpecialties :=
    fold_left
      (fun uniqueSpecialties doctor =>
         fold_left
           (fun uniqueSpecialties specialty =>
              StringSet.add uniqueSpecialties (Specialty.name specialty))
           (Doctor.specialities doctor) uniqueSpecialties)
      doctors uniqueSpecialties in
  StringSet.toArray uniqueSpecialties.

(** The [useState] setter of the name filter. *)
Definition setNameFilter (st : FilterState) (value : string) : FilterState :=
  {| nameFilter := value;
     consultationType := consultationType st;
     selectedSpecialties := selectedSpecialties st;
     sortBy := sortBy st |}.

(** What the Autocomplete hands to [onChange]: free text, one of the
    options, or null. *)
Inductive AutocompleteValue :=
| FreeText (text : string)
| Picked (option : DoctorSuggestion.t)
| Cleared.

Definition onChange (st : FilterState) (newValue : AutocompleteValue)
  : FilterState :=
  match newValue with
  | FreeText text => setNameFilter st text
  | Picked option => setNameFilter st (DoctorSuggestion.name option)
  | Cleared => setNameFilter st ""
  end.

(** String.prototype.replace(/\s+/g, '-'): every maximal run of white space
    becomes one hyphen.  [inRun] tells that the code unit before was white
    space. *)
Fixpoint replaceWhiteSpaceRuns (inRun : bool) (s : string) : string :=
  match s with
  | EmptyString => EmptyString
  | String c s' =>
      if JS.isWhiteSpace c
      then if inRun then replaceWhiteSpaceRuns true s'
           else String "-" (replaceWhiteSpaceRuns true s')
      else String c (replaceWhiteSpaceRuns false s')
  end.

(** The [data-testid] of a specialty chip. *)
Definition chipTestId (specialty : string) : string :=
  "filter-specialty-" ++ replaceWhiteSpaceRuns false specialty.

(** No white space among the code units of [s]. *)
Fixpoint noWhiteSpace (s : string) : bool :=
  match s with
  | EmptyString => true
  | String c s' => negb (JS.isWhiteSpace c) && noWhiteSpace s'
  end.

(** A run of chip clicks, in order. *)
Definition clickChips (selectedSpecialties clicked : list string)
  : list string :=
  fold_left toggleSpecialty clicked selectedSpecialties.

(** ** The built-ins on concrete inputs *)

Example parseInt_examples :
  JS.parseInt "500" = Some 500%Z
  /\ JS.parseInt "  42" = Some 42%Z
  /\ JS.parseInt "-7" = Some (-7)%Z
  /\ JS.parseInt "13 Years of experience" = Some 13%Z
  /\ JS.parseInt "0x1F" = Some 31%Z
  /\ JS.parseInt "Rs 500" = None
  /\ JS.parseInt "" = None.
Proof. repeat split. Qed.

Example split_join_examples :
  JS.split "," "" = [""]
  /\ JS.split "," "a,,b" = ["a"; ""; "b"]
  /\ JS.split "," "Dentist" = ["Dentist"]
  /\ JS.join "," [] = ""
  /\ JS.join "," ["Dentist"; "ENT"] = "Dentist,ENT".
Proof. repeat split. Qed.

Example includes_examples :
  JS.includes (JS.toLowerCase "Dr. Asha Rao") (JS.toLowerCase "ASHA") = true
  /\ JS.includes "asha" "" = true
  /\ JS.includes "asha" "rao" = false.
Proof. repeat split. Qed.

Example sort_examples :
  JS.sort (fun a b => JS.sub (Some a) (Some b)) [3; 1; 2; 1]%Z
  = [1; 1; 2; 3]%Z.
Proof. reflexivity. Qed.

Example view_examples :
  map Doctor.name (filteredDoctors sampleStore sampleState)
  = ["Dr. Asha Rao"]
  /\ map DoctorSuggestion.name (suggestions sampleStore "dent")
     = ["Dr. Asha Rao"; "Dr. Bela Iyer"]
  /\ persist sampleState
     = [("name", "dr"); ("consultationType", "video");
        ("specialties", "Dentist")]
  /\ hydrate [("sortBy", "fees"); ("specialties", "Dentist,ENT")]
     = {| nameFilter := ""; consultationType := "";
          selectedSpecialties := ["Dentist"; "ENT"]; sortBy := "fees" |}.
Proof. repeat split. Qed.

(** ** Facts about the string built-ins *)

Lemma prefix_app (t s : string) :
  prefix t s = true <-> exists b, s = t ++ b.
Proof.
  revert s; induction t as [|c t IH]; intros s; simpl.
  - destruct s; simpl; split; eauto.
  - destruct s as [|c' s]; simpl.
    + split; [discriminate | intros [b Hb]; discriminate].
    + destruct (ascii_dec c c') as [->|Hne].
      * rewrite IH. split; intros [b Hb]; exists b; congruence.
      * split; [discriminate | intros [b Hb]; congruence].
Qed.

Lemma includes_iff (s t : string) :
  JS.includes s t = true <-> exists a b, s = a ++ t ++ b.
Proof.
  induction s as [|c s IH].
  - change (JS.includes "" t) with (prefix t "" || false).
    rewrite orb_false_r, prefix_app. split.
    + intros [b Hb]. exists "", b. exact Hb.
    + intros [a [b Hb]]. destruct a; simpl in Hb; [eauto | discriminate].
  - change (JS.includes (String c s) t)
      with (prefix t (String c s) || JS.includes s t).
    rewrite orb_true_iff, prefix_app, IH. split.
    + intros [[b Hb] | [a [b Hb]]].
      * exists "", b. exact Hb.
      * exists (String c a), b. simpl. congruence.
    + intros [a [b Hb]]. destruct a as [|c' a]; simpl in Hb.
      * left. eauto.
      * right. exists a, b. congruence.
Qed.

Lemma includes_empty (s : string) : JS.includes s "" = true.
Proof. apply includes_iff. exists "", s. reflexivity. Qed.

Lemma toLowerCase_app (a b : string) :
  JS.toLowerCase (a ++ b) = JS.toLowerCase a ++ JS.toLowerCase b.
Proof. induction a; simpl; congruence. Qed.

Lemma toLowerCase_app_inv (s a b : string) :
  JS.toLowerCase s = a ++ b ->
  exists a' b', s = a' ++ b'
                /\ JS.toLowerCase a' = a /\ JS.toLowerCase b' = b.
Proof.
  revert s; induction a as [|c a IH]; intros s H; simpl in H.
  - exists "", s. auto.
  - destruct s as [|c' s]; simpl in H; [discriminate|].
    injection H as Hc Hs. destruct (IH _ Hs) as (a' & b' & -> & Ha & Hb).
    exists (String c' a'), b'. simpl. repeat split; congruence.
Qed.

(** [includes] on the lower-cased strings is containment ignoring case. *)
Lemma includes_lower_iff (s q : string) :
  JS.includes (JS.toLowerCase s) (JS.toLowerCase q) = true
  <-> Spec.containsIgnoringCase s q.
Proof.
  rewrite includes_iff. unfold Spec.containsIgnoringCase. split.
  - intros (a & b & H).
    destruct (toLowerCase_app_inv _ _ _ H) as (a' & r & -> & Ha & Hr).
    destruct (toLowerCase_app_inv _ _ _ Hr) as (q' & b' & -> & Hq & Hb).
    exists a', q', b'. auto.
  - intros (a & q' & b & -> & Hq).
    exists (JS.toLowerCase a), (JS.toLowerCase b).
    now rewrite !toLowerCase_app, Hq.
Qed.

Lemma truthy_false_iff (s : string) : JS.truthy s = false <-> s = "".
Proof. destruct s; simpl; split; congruence. Qed.

Lemma truthy_true_iff (s : string) : JS.truthy s = true <-> s <> "".
Proof. destruct s; simpl; split; congruence. Qed.

Lemma arrayIncludes_iff (l : list string) (x : string) :
  JS.arrayIncludes l x = true <-> In x l.
Proof.
  unfold JS.arrayIncludes. rewrite existsb_exists. split.
  - intros [y [Hy He]]. apply String.eqb_eq in He. congruence.
  - intros H. exists x. split; [exact H | apply String.eqb_refl].
Qed.

(** ** Facts about filtering *)

Lemma filter_filter_andb {A : Type} (f g : A -> bool) (l : list A) :
  filter g (filter f l) = filter (fun x => f x && g x) l.
Proof.
  induction l as [|x l IH]; simpl; [reflexivity|].
  destruct (f x); simpl; [destruct (g x)|]; congruence.
Qed.

Lemma filter_all {A : Type} (f : A -> bool) (l : list A) :
  (forall x, f x = true) -> filter f l = l.
Proof.
  intros H. induction l as [|x l IH]; simpl; [reflexivity|].
  rewrite H. congruence.
Qed.

Lemma nameStage (q : string) (l : list Doctor.t) :
  (if JS.truthy q then filter (nameMatches q) l else l)
  = filter (fun d => Spec.matchesName d q) l.
Proof.
  destruct q as [|c q]; simpl.
  - symmetry. apply filter_all. intros d. apply includes_empty.
  - reflexivity.
Qed.

Lemma consultationStage (ty : string) (l : list Doctor.t) :
  (if String.eqb ty "video" then filter Doctor.video_consult l
   else if String.eqb ty "clinic" then filter Doctor.in_clinic l
   else l)
  = filter (fun d => Spec.matchesConsultationType d ty) l.
Proof.
  unfold Spec.matchesConsultationType.
  destruct (String.eqb ty "video"); [apply filter_ext; reflexivity|].
  destruct (String.eqb ty "clinic"); [apply filter_ext; reflexivity|].
  symmetry. apply filter_all. reflexivity.
Qed.

Lemma specialtiesStage (selected : list string) (l : list Doctor.t) :
  (if (0 <? List.length selected)%nat
   then filter (hasSelectedSpecialty selected) l else l)
  = filter (fun d => Spec.matchesSpecialties d selected) l.
Proof.
  destruct selected as [|s selected]; simpl.
  - symmetry. apply filter_all. reflexivity.
  - reflexivity.
Qed.

(** The memo is the reducer of the specification. *)
Lemma filteredDoctors_reduce (doctors : list Doctor.t) (st : FilterState) :
  filteredDoctors doctors st = Spec.reduce doctors st.
Proof.
  unfold filteredDoctors, Spec.reduce, Spec.order.
  rewrite nameStage, consultationStage, specialtiesStage.
  rewrite !filter_filter_andb.
  rewrite (filter_ext _ (Spec.matchesAll st))
    by (intros d; unfold Spec.matchesAll; now rewrite andb_assoc).
  reflexivity.
Qed.

(** ** Facts about the sort *)

Section SortFacts.
Context {A : Type} (comparefn : A -> A -> JS.number).

Lemma insert_perm (x : A) (l : list A) :
  Permutation (JS.insert comparefn x l) (x :: l).
Proof.
  induction l as [|y l IH]; simpl; [reflexivity|].
  destruct (JS.SortCompare comparefn x y <? 0)%Z; [reflexivity|].
  rewrite IH. apply perm_swap.
Qed.

Lemma fold_insert_perm (l acc : list A) :
  Permutation (fold_left (fun acc x => JS.insert comparefn x acc) l acc)
              (acc ++ l)%list.
Proof.
  revert acc; induction l as [|x l IH]; intros acc; simpl.
  - now rewrite app_nil_r.
  - rewrite IH, insert_perm. apply Permutation_middle.
Qed.

Lemma sort_perm (l : list A) : Permutation (JS.sort comparefn l) l.
Proof. apply (fold_insert_perm l []). Qed.

Lemma sort_In (l : list A) (x : A) : In x (JS.sort comparefn l) <-> In x l.
Proof.
  split; apply Permutation_in; [|symmetry]; apply sort_perm.
Qed.

(** When the comparator is the difference of an integer key on the elements
    that satisfy [P], the sort puts them in ascending key order and keeps
    the elements of equal key in their original order. *)
Context (key : A -> Z) (P : A -> Prop).
Hypothesis comparefn_key :
  forall x y, P x -> P y -> comparefn x y = Some (key x - key y)%Z.

Lemma insert_sorted (x : A) (l : list A) :
  P x -> Forall P l ->
  StronglySorted (fun x y => (key x <= key y)%Z) l ->
  StronglySorted (fun x y => (key x <= key y)%Z) (JS.insert comparefn x l).
Proof.
  intros Hx HP Hs. induction Hs as [|y l Hs IH Hy]; simpl.
  - repeat constructor.
  - inversion HP as [|? ? Py Pl]; subst.
    unfold JS.SortCompare. rewrite (comparefn_key x y Hx Py).
    destruct (Z.ltb_spec (key x - key y) 0) as [Hlt|Hge].
    + constructor; [constructor; assumption|].
      constructor; [lia|].
      eapply Forall_impl; [|exact Hy]. simpl. intros; lia.
    + constructor; [apply IH; assumption|].
      eapply Permutation_Forall; [symmetry; apply insert_perm|].
      constructor; [lia | assumption].
Qed.

Lemma fold_insert_sorted (l acc : list A) :
  Forall P l -> Forall P acc ->
  StronglySorted (fun x y => (key x <= key y)%Z) acc ->
  StronglySorted (fun x y => (key x <= key y)%Z)
    (fold_left (fun acc x => JS.insert comparefn x acc) l acc).
Proof.
  revert acc; induction l as [|x l IH]; intros acc Hl Hacc Hs; simpl.
  - exact Hs.
  - inversion Hl; subst. apply IH; [assumption| |].
    + eapply Permutation_Forall; [symmetry; apply insert_perm|].
      constructor; assumption.
    + apply insert_sorted; assumption.
Qed.

Lemma sort_sorted (l : list A) :
  Forall P l -> StronglySorted (fun x y => (key x <= key y)%Z)
                  (JS.sort comparefn l).
Proof.
  intros Hl. apply (fold_insert_sorted l []); [assumption| |]; constructor.
Qed.

(** Stability: the elements of any one key come out in their array order. *)
Lemma filter_key_above (k : Z) (l : list A) :
  Forall (fun z => (k < key z)%Z) l ->
  filter (fun z => (key z =? k)%Z) l = [].
Proof.
  induction 1 as [|z l Hz _ IH]; simpl; [reflexivity|].
  destruct (Z.eqb_spec (key z) k); [lia | exact IH].
Qed.

Lemma insert_stable (x : A) (l : list A) (k : Z) :
  P x -> Forall P l ->
  StronglySorted (fun x y => (key x <= key y)%Z) l ->
  filter (fun z => (key z =? k)%Z) (JS.insert comparefn x l)
  = (filter (fun z => (key z =? k)%Z) l
     ++ if (key x =? k)%Z then [x] else [])%list.
Proof.
  intros Hx HP Hs. induction Hs as [|y l Hs IH Hy].
  - simpl. destruct (key x =? k)%Z; reflexivity.
  - inversion HP as [|? ? Py Pl]; subst.
    cbn [JS.insert]. unfold JS.SortCompare.
    rewrite (comparefn_key x y Hx Py).
    destruct (Z.ltb_spec (key x - key y) 0) as [Hlt|Hge].
    + cbn [filter]. destruct (Z.eqb_spec (key x) k) as [E|E].
      * assert (Hnone : filter (fun z => (key z =? k)%Z) (y :: l) = []).
        { apply filter_key_above. constructor; [lia|].
          eapply Forall_impl; [|exact Hy]. simpl. intros; lia. }
        cbn [filter] in Hnone. rewrite Hnone. reflexivity.
      * now rewrite app_nil_r.
    + cbn [filter]. rewrite (IH Pl).
      destruct (key y =? k)%Z; reflexivity.
Qed.

Lemma fold_insert_stable (l acc : list A) (k : Z) :
  Forall P l -> Forall P acc ->
  StronglySorted (fun x y => (key x <= key y)%Z) acc ->
  filter (fun z => (key z =? k)%Z)
    (fold_left (fun acc x => JS.insert comparefn x acc) l acc)
  = (filter (fun z => (key z =? k)%Z) acc
     ++ filter (fun z => (key z =? k)%Z) l)%list.
Proof.
  revert acc; induction l as [|x l IH]; intros acc Hl Hacc Hs.
  - simpl. now rewrite app_nil_r.
  - inversion Hl as [|? ? Px Pl]; subst. cbn [fold_left].
    rewrite IH; [|assumption| |].
    + rewrite insert_stable by assumption. rewrite <- app_assoc.
      f_equal. cbn [filter]. destruct (key x =? k)%Z; reflexivity.
    + eapply Permutation_Forall; [symmetry; apply insert_perm|].
      constructor; assumption.
    + apply insert_sorted; assumption.
Qed.

Lemma sort_stable (l : list A) (k : Z) :
  Forall P l ->
  filter (fun z => (key z =? k)%Z) (JS.sort comparefn l)
  = filter (fun z => (key z =? k)%Z) l.
Proof.
  intros Hl. apply (fold_insert_stable l [] k); [assumption| |]; constructor.
Qed.

End SortFacts.

(** Two arrangements in ascending key order that agree on the order of the
    elements of each key are the same list. *)
Lemma sorted_stable_unique {A : Type} (key : A -> Z) (l1 l2 : list A) :
  StronglySorted (fun x y => (key x <= key y)%Z) l1 ->
  StronglySorted (fun x y => (key x <= key y)%Z) l2 ->
  (forall k, filter (fun z => (key z =? k)%Z) l1
             = filter (fun z => (key z =? k)%Z) l2) ->
  l1 = l2.
Proof.
  intros H1; revert l2.
  induction H1 as [|x l1 H1 IH Hx]; intros l2 H2 Hk.
  - destruct l2 as [|y l2]; [reflexivity|].
    specialize (Hk (key y)). simpl in Hk. rewrite Z.eqb_refl in Hk.
    discriminate.
  - destruct l2 as [|y l2].
    + specialize (Hk (key x)). simpl in Hk. rewrite Z.eqb_refl in Hk.
      discriminate.
    + inversion H2 as [|? ? H2' Hy]; subst.
      assert (Hxy : key x = key y).
      { destruct (Z.lt_total (key x) (key y)) as [Hlt|[E|Hlt]];
          [exfalso | exact E | exfalso].
        - specialize (Hk (key x)). cbn [filter] in Hk.
          rewrite Z.eqb_refl in Hk.
          destruct (Z.eqb_spec (key y) (key x)); [lia|].
          rewrite (filter_key_above key (key x) l2) in Hk; [discriminate|].
          eapply Forall_impl; [|exact Hy]. simpl. intros; lia.
        - specialize (Hk (key y)). cbn [filter] in Hk.
          rewrite Z.eqb_refl in Hk.
          destruct (Z.eqb_spec (key x) (key y)); [lia|].
          rewrite (filter_key_above key (key y) l1) in Hk; [discriminate|].
          eapply Forall_impl; [|exact Hx]. simpl. intros; lia. }
      assert (E : x = y).
      { specialize (Hk (key x)). cbn [filter] in Hk.
        rewrite <- Hxy, Z.eqb_refl in Hk. congruence. }
      subst y. f_equal. apply IH; [exact H2'|]. intros k.
      specialize (Hk k). cbn [filter] in Hk.
      destruct (key x =? k)%Z; congruence.
Qed.

(** So under a comparator that is the difference of a key, every stable
    sort returns what [JS.sort] returns. *)
Lemma sort_unique {A : Type} (comparefn : A -> A -> JS.number)
  (key : A -> Z) (P : A -> Prop) (l r : list A) :
  (forall x y, P x -> P y -> comparefn x y = Some (key x - key y)%Z) ->
  Forall P l ->
  StronglySorted (fun x y => (key x <= key y)%Z) r ->
  (forall k, filter (fun z => (key z =? k)%Z) r
             = filter (fun z => (key z =? k)%Z) l) ->
  r = JS.sort comparefn l.
Proof.
  intros Hc Hl Hr Hk. apply (sorted_stable_unique key); [exact Hr| |].
  - apply (sort_sorted comparefn key P Hc l Hl).
  - intros k. rewrite Hk. symmetry.
    apply (sort_stable comparefn key P Hc l k Hl).
Qed.

Lemma StronglySorted_impl {A : Type} (R R' : A -> A -> Prop) (P : A -> Prop)
  (l : list A) :
  (forall x y, P x -> P y -> R x y -> R' x y) ->
  Forall P l -> StronglySorted R l -> StronglySorted R' l.
Proof.
  intros HR HP Hs. induction Hs as [|x l Hs IH Hx]; [constructor|].
  inversion HP as [|? ? Px Pl]; subst. constructor; [apply IH; assumption|].
  rewrite Forall_forall in *. intros y Hy. apply HR; auto.
Qed.

Lemma byFees_key (x y : Doctor.t) :
  JS.parseInt (Doctor.fees x) <> None ->
  JS.parseInt (Doctor.fees y) <> None ->
  byFees x y
  = Some (numberOr0 (Doctor.fees x) - numberOr0 (Doctor.fees y))%Z.
Proof.
  unfold byFees, numberOr0. intros Hx Hy.
  destruct (JS.parseInt (Doctor.fees x)), (JS.parseInt (Doctor.fees y));
    simpl; congruence.
Qed.

Lemma byExperience_key (x y : Doctor.t) :
  JS.parseInt (Doctor.experience x) <> None ->
  JS.parseInt (Doctor.experience y) <> None ->
  byExperience x y
  = Some (- numberOr0 (Doctor.experience x)
          - - numberOr0 (Doctor.experience y))%Z.
Proof.
  unfold byExperience, numberOr0. intros Hx Hy.
  destruct (JS.parseInt (Doctor.experience x)),
           (JS.parseInt (Doctor.experience y)); simpl; try congruence.
  f_equal. lia.
Qed.

Lemma sort_byFees_sorted (l : list Doctor.t) :
  Forall (fun d => JS.parseInt (Doctor.fees d) <> None) l ->
  StronglySorted Spec.feeAscending (JS.sort byFees l).
Proof.
  intros Hl.
  apply (StronglySorted_impl
           (fun x y => (numberOr0 (Doctor.fees x)
                        <= numberOr0 (Doctor.fees y))%Z)
           _ (fun d => JS.parseInt (Doctor.fees d) <> None)).
  - unfold Spec.feeAscending, numberOr0. intros x y Hx Hy Hle.
    destruct (JS.parseInt (Doctor.fees x)) as [a|]; [|congruence].
    destruct (JS.parseInt (Doctor.fees y)) as [b|]; [|congruence].
    exists a, b. auto.
  - eapply Permutation_Forall; [symmetry; apply sort_perm | exact Hl].
  - apply sort_sorted with (P := fun d => JS.parseInt (Doctor.fees d) <> None);
      [apply byFees_key | exact Hl].
Qed.

Lemma sort_byExperience_sorted (l : list Doctor.t) :
  Forall (fun d => JS.parseInt (Doctor.experience d) <> None) l ->
  StronglySorted Spec.experienceDescending (JS.sort byExperience l).
Proof.
  intros Hl.
  apply (StronglySorted_impl
           (fun x y => (- numberOr0 (Doctor.experience x)
                        <= - numberOr0 (Doctor.experience y))%Z)
           _ (fun d => JS.parseInt (Doctor.experience d) <> None)).
  - unfold Spec.experienceDescending, numberOr0. intros x y Hx Hy Hle.
    destruct (JS.parseInt (Doctor.experience x)) as [a|]; [|congruence].
    destruct (JS.parseInt (Doctor.experience y)) as [b|]; [|congruence].
    exists a, b. repeat split; lia.
  - eapply Permutation_Forall; [symmetry; apply sort_perm | exact Hl].
  - apply sort_sorted
      with (P := fun d => JS.parseInt (Doctor.experience d) <> None);
      [apply byExperience_key | exact Hl].
Qed.

Lemma Forall_filter {A : Type} (P : A -> Prop) (f : A -> bool) (l : list A) :
  Forall P l -> Forall P (filter f l).
Proof.
  rewrite !Forall_forall. intros H x Hx. apply filter_In in Hx. apply H, Hx.
Qed.

(** What the conjunction of the three predicates says of a record. *)
Lemma matchesAll_iff (st : FilterState) (d : Doctor.t) :
  Spec.matchesAll st d = true <->
  (nameFilter st <> "" ->
   Spec.containsIgnoringCase (Doctor.name d) (nameFilter st))
  /\ (consultationType st = "video" -> Doctor.video_consult d = true)
  /\ (consultationType st = "clinic" -> Doctor.in_clinic d = true)
  /\ (selectedSpecialties st <> [] ->
      exists specialty,
        In specialty (Doctor.specialities d)
        /\ In (Specialty.name specialty) (selectedSpecialties st)).
Proof.
  unfold Spec.matchesAll. rewrite !andb_true_iff.
  assert (Hn : Spec.matchesName d (nameFilter st) = true <->
               (nameFilter st <> "" ->
                Spec.containsIgnoringCase (Doctor.name d) (nameFilter st))).
  { unfold Spec.matchesName. rewrite includes_lower_iff. split; [auto|].
    intros H. destruct (nameFilter st) as [|c q] eqn:E.
    - exists "", "", (Doctor.name d). auto.
    - apply H. discriminate. }
  assert (Hc : Spec.matchesConsultationType d (consultationType st) = true <->
               (consultationType st = "video" -> Doctor.video_consult d = true)
               /\ (consultationType st = "clinic" ->
                   Doctor.in_clinic d = true)).
  { unfold Spec.matchesConsultationType.
    destruct (String.eqb_spec (consultationType st) "video") as [E|E].
    - rewrite E. split; [intros H; split; [auto | discriminate] | tauto].
    - destruct (String.eqb_spec (consultationType st) "clinic") as [E'|E'].
      + split; [intros H; split; [contradiction | auto] | tauto].
      + split; [intros _; split; contradiction | reflexivity]. }
  assert (Hs : Spec.matchesSpecialties d (selectedSpecialties st) = true <->
               (selectedSpecialties st <> [] ->
                exists specialty,
                  In specialty (Doctor.specialities d)
                  /\ In (Specialty.name specialty) (selectedSpecialties st))).
  { destruct (selectedSpecialties st) as [|s sel] eqn:E.
    - simpl. split; [intros _ H; contradiction | reflexivity].
    - unfold Spec.matchesSpecialties. rewrite existsb_exists. split.
      + intros [sp [Hin Hex]] _. exists sp. split; [exact Hin|].
        apply existsb_exists in Hex. destruct Hex as [x [Hx He]].
        apply String.eqb_eq in He. congruence.
      + intros H. destruct H as [sp [Hin Hsel]]; [discriminate|].
        exists sp. split; [exact Hin|]. apply existsb_exists.
        exists (Specialty.name sp). split; [exact Hsel|].
        apply String.eqb_refl. }
  rewrite Hn, Hc, Hs. tauto.
Qed.

Lemma reduce_In (doctors : list Doctor.t) (st : FilterState) (d : Doctor.t) :
  In d (Spec.reduce doctors st)
  <-> In d doctors /\ Spec.matchesAll st d = true.
Proof.
  unfold Spec.reduce, Spec.order.
  destruct (String.eqb (sortBy st) "fees");
    [|destruct (String.eqb (sortBy st) "experience")];
    rewrite ?sort_In; apply filter_In.
Qed.

Lemma reduce_unsorted (doctors : list Doctor.t) (st : FilterState) :
  sortBy st <> "fees" -> sortBy st <> "experience" ->
  Spec.reduce doctors st = filter (Spec.matchesAll st) doctors.
Proof.
  intros Hf He. unfold Spec.reduce, Spec.order.
  apply String.eqb_neq in Hf, He. now rewrite Hf, He.
Qed.

(** ** The filtered view *)

(** C1. Whatever the store and the filter state, a record is in the filtered
    view exactly when it is in the store and passes the conjunction of the
    three predicates; a record passes exactly when the name query, if not
    empty, occurs in its name ignoring case, the chosen consultation type, if
    any, is offered, and, if some specialties are selected, one of its
    specialties is among them.  When no sort key is set the view is the
    stable filter of the store by that conjunction. *)
Theorem filteredDoctors_active_predicates
  (doctors : list Doctor.t) (st : FilterState) :
  (forall d, In d (filteredDoctors doctors st)
             <-> In d doctors /\ Spec.matchesAll st d = true)
  /\ (forall d, Spec.matchesAll st d = true <->
        (nameFilter st <> "" ->
         Spec.containsIgnoringCase (Doctor.name d) (nameFilter st))
        /\ (consultationType st = "video" -> Doctor.video_consult d = true)
        /\ (consultationType st = "clinic" -> Doctor.in_clinic d = true)
        /\ (selectedSpecialties st <> [] ->
            exists specialty,
              In specialty (Doctor.specialities d)
              /\ In (Specialty.name specialty) (selectedSpecialties st)))
  /\ (sortBy st = "" ->
      filteredDoctors doctors st = filter (Spec.matchesAll st) doctors).
Proof.
  rewrite filteredDoctors_reduce. split; [|split].
  - intros d. apply reduce_In.
  - intros d. apply matchesAll_iff.
  - intros E. apply reduce_unsorted; rewrite E; discriminate.
Qed.

Lemma filteredDoctors_active_predicates_witness :
  filteredDoctors sampleStore sampleState
  = filter (Spec.matchesAll sampleState) sampleStore.
Proof.
  apply (proj2 (proj2 (filteredDoctors_active_predicates
                         sampleStore sampleState))).
  reflexivity.
Defined.

Lemma safeNumber_parses (s : string) :
  safeNumber s -> JS.parseInt s <> None.
Proof. intros [n [E _]]. congruence. Qed.

Lemma safe_fees_parse (l : list Doctor.t) :
  Forall (fun d => safeNumber (Doctor.fees d)) l ->
  Forall (fun d => JS.parseInt (Doctor.fees d) <> None) l.
Proof.
  apply Forall_impl. intros d. apply safeNumber_parses.
Qed.

Lemma safe_experience_parse (l : list Doctor.t) :
  Forall (fun d => safeNumber (Doctor.experience d)) l ->
  Forall (fun d => JS.parseInt (Doctor.experience d) <> None) l.
Proof.
  apply Forall_impl. intros d. apply safeNumber_parses.
Qed.

(** C2. With sort key [fees] and every fee in the store a number in the
    safe integer range of a double (where the parse and the comparator of the
    model are those of the code), the view holds the records that pass the
    filters, in ascending order of the parsed fee; with sort key
    [experience] and every experience such a number, in descending order of
    the parsed experience.  On the records with fees 500, 200, 800 and
    experience 5, 20, 1 the two orders are 200, 500, 800 and 20, 5, 1. *)
Theorem filteredDoctors_sorted (doctors : list Doctor.t) (st : FilterState) :
  (sortBy st = "fees" ->
   Forall (fun d => safeNumber (Doctor.fees d)) doctors ->
   Permutation (filteredDoctors doctors st)
               (filter (Spec.matchesAll st) doctors)
   /\ StronglySorted Spec.feeAscending (filteredDoctors doctors st))
  /\ (sortBy st = "experience" ->
      Forall (fun d => safeNumber (Doctor.experience d)) doctors ->
      Permutation (filteredDoctors doctors st)
                  (filter (Spec.matchesAll st) doctors)
      /\ StronglySorted Spec.experienceDescending
           (filteredDoctors doctors st))
  /\ map Doctor.fees (filteredDoctors sampleStore sortedByFees)
     = ["200"; "500"; "800"]
  /\ map Doctor.experience (filteredDoctors sampleStore sortedByExperience)
     = ["20"; "5"; "1"].
Proof.
  rewrite filteredDoctors_reduce. unfold Spec.reduce, Spec.order.
  split; [|split; [|split; reflexivity]].
  - intros E H. rewrite E. simpl. split; [apply sort_perm|].
    apply sort_byFees_sorted, Forall_filter, safe_fees_parse, H.
  - intros E H. rewrite E. simpl. split; [apply sort_perm|].
    apply sort_byExperience_sorted, Forall_filter, safe_experience_parse, H.
Qed.

Lemma sampleStore_safe :
  Forall (fun d => safeNumber (Doctor.fees d)) sampleStore
  /\ Forall (fun d => safeNumber (Doctor.experience d)) sampleStore.
Proof.
  unfold sampleStore, safeNumber, safeInteger. split;
    repeat (apply Forall_cons;
            [cbv beta; eexists; split; [reflexivity | split; discriminate]|]);
    apply Forall_nil.
Qed.

Lemma filteredDoctors_sorted_witness :
  StronglySorted Spec.feeAscending (filteredDoctors sampleStore sortedByFees)
  /\ StronglySorted Spec.experienceDescending
       (filteredDoctors sampleStore sortedByExperience).
Proof.
  split.
  - apply (proj1 (filteredDoctors_sorted sampleStore sortedByFees));
      [reflexivity | apply sampleStore_safe].
  - apply (proj1 (proj2 (filteredDoctors_sorted
                           sampleStore sortedByExperience)));
      [reflexivity | apply sampleStore_safe].
Defined.

(** ** Suggestions *)

Lemma suggestMatch_iff (q : string) (d : Doctor.t) :
  Spec.suggestMatch q d = true <->
  Spec.containsIgnoringCase (Doctor.name d) q
  \/ exists specialty,
       In specialty (Doctor.specialities d)
       /\ Spec.containsIgnoringCase (Specialty.name specialty) q.
Proof.
  unfold Spec.suggestMatch, Spec.matchesName.
  rewrite orb_true_iff, includes_lower_iff, existsb_exists.
  split; (intros [H|[sp [Hin H]]]; [left; exact H | right; exists sp]);
    (split; [exact Hin|]); apply includes_lower_iff; exact H.
Qed.

Lemma toSuggestion_carries (l : list Doctor.t) :
  Forall2 Spec.carries (map toSuggestion l) l.
Proof.
  induction l as [|d l IH]; simpl; constructor; [|exact IH].
  repeat split.
Qed.

Lemma suggestions_suggest (doctors : list Doctor.t) (q : string) :
  suggestions doctors q = map toSuggestion (Spec.suggest doctors q 5).
Proof.
  unfold suggestions, Spec.suggest. destruct q as [|c q]; [reflexivity|].
  cbn [JS.truthy negb]. apply firstn_map.
Qed.

(** C3. The suggestion list corresponds, entry by entry and in the same
    order, to the suggestion deriver of the specification with limit 5, each
    entry having the id, the name, the specialties and the photo of its
    record: for a non-empty query, to the first five (or fewer) records of
    the store, in store order, whose name, or one of whose specialty names,
    contains the query ignoring case.  The list never has more than five
    entries, and the empty query gives the empty list. *)
Theorem suggestions_first_five (doctors : list Doctor.t) (q : string) :
  Forall2 Spec.carries (suggestions doctors q) (Spec.suggest doctors q 5)
  /\ (q <> "" ->
      Forall2 Spec.carries (suggestions doctors q)
        (firstn 5 (filter (Spec.suggestMatch q) doctors)))
  /\ suggestions doctors q = map toSuggestion (Spec.suggest doctors q 5)
  /\ (q <> "" ->
   suggestions doctors q
   = map toSuggestion (firstn 5 (filter (Spec.suggestMatch q) doctors)))
  /\ (forall d, Spec.suggestMatch q d = true <->
        Spec.containsIgnoringCase (Doctor.name d) q
        \/ exists specialty,
             In specialty (Doctor.specialities d)
             /\ Spec.containsIgnoringCase (Specialty.name specialty) q)
  /\ (List.length (suggestions doctors q) <= 5)%nat
  /\ suggestions doctors "" = [].
Proof.
  split; [|split; [|split; [|split; [|split; [|split]]]]].
  - rewrite suggestions_suggest. apply toSuggestion_carries.
  - intros Hq. rewrite suggestions_suggest. unfold Spec.suggest.
    destruct q as [|c q]; [contradiction|]. apply toSuggestion_carries.
  - apply suggestions_suggest.
  - intros Hq. unfold suggestions. apply truthy_true_iff in Hq. rewrite Hq.
    cbn [negb]. apply firstn_map.
  - intros d. apply suggestMatch_iff.
  - unfold suggestions. destruct (JS.truthy q); cbn [negb List.length];
      [apply firstn_le_length | lia].
  - reflexivity.
Qed.

Lemma suggestions_first_five_witness :
  Forall2 Spec.carries (suggestions sampleStore "dent")
    (firstn 5 (filter (Spec.suggestMatch "dent") sampleStore))
  /\ map DoctorSuggestion.name (suggestions sampleStore "dent")
     = ["Dr. Asha Rao"; "Dr. Bela Iyer"].
Proof.
  split; [|reflexivity].
  apply (proj1 (proj2 (suggestions_first_five sampleStore "dent"))).
  discriminate.
Defined.

(** ** The empty store *)

(** C9. On the empty store the filtered view and the suggestion list are
    both empty, for every filter state and every query; both are total
    functions, so there is no error to raise. *)
Theorem empty_store_views (st : FilterState) (q : string) :
  filteredDoctors [] st = [] /\ suggestions [] q = [].
Proof.
  split.
  - rewrite filteredDoctors_reduce. unfold Spec.reduce, Spec.order. simpl.
    destruct (String.eqb (sortBy st) "fees"); [reflexivity|].
    destruct (String.eqb (sortBy st) "experience"); reflexivity.
  - unfold suggestions. destruct (JS.truthy q); reflexivity.
Qed.

(** ** Defaults are identities *)

Lemma reduce_filter_ext (doctors : list Doctor.t) (st : FilterState)
  (f : Doctor.t -> bool) :
  (forall d, Spec.matchesAll st d = f d) ->
  Spec.reduce doctors st = Spec.order (sortBy st) (filter f doctors).
Proof.
  intros H. unfold Spec.reduce. f_equal. apply filter_ext, H.
Qed.

(** C7. The empty name query, the unset consultation type and the empty
    specialty selection each match every record, and the view computed with
    one of them at its default is the view of the other two predicates
    alone; with all three at their default and no sort key the view is the
    store. *)
Theorem default_filters_identity (doctors : list Doctor.t) (st : FilterState) :
  (forall d, Spec.matchesName d "" = true)
  /\ (forall d, Spec.matchesConsultationType d "" = true)
  /\ (forall d, Spec.matchesSpecialties d [] = true)
  /\ (nameFilter st = "" ->
      filteredDoctors doctors st
      = Spec.order (sortBy st)
          (filter (fun d =>
                     Spec.matchesConsultationType d (consultationType st)
                     && Spec.matchesSpecialties d (selectedSpecialties st))
             doctors))
  /\ (consultationType st = "" ->
      filteredDoctors doctors st
      = Spec.order (sortBy st)
          (filter (fun d =>
                     Spec.matchesName d (nameFilter st)
                     && Spec.matchesSpecialties d (selectedSpecialties st))
             doctors))
  /\ (selectedSpecialties st = [] ->
      filteredDoctors doctors st
      = Spec.order (sortBy st)
          (filter (fun d =>
                     Spec.matchesName d (nameFilter st)
                     && Spec.matchesConsultationType d (consultationType st))
             doctors))
  /\ filteredDoctors doctors defaultState = doctors.
Proof.
  assert (Hn : forall d, Spec.matchesName d "" = true)
    by (intros d; apply includes_empty).
  rewrite filteredDoctors_reduce.
  split; [exact Hn|]. split; [reflexivity|]. split; [reflexivity|].
  split; [|split; [|split]].
  - intros E. apply reduce_filter_ext. intros d. unfold Spec.matchesAll.
    now rewrite E, Hn.
  - intros E. apply reduce_filter_ext. intros d. unfold Spec.matchesAll.
    rewrite E. change (Spec.matchesConsultationType d "") with true.
    now rewrite andb_true_r.
  - intros E. apply reduce_filter_ext. intros d. unfold Spec.matchesAll.
    rewrite E. apply andb_true_r.
  - rewrite filteredDoctors_reduce. unfold Spec.reduce, Spec.order. simpl.
    apply filter_all. intros d. unfold Spec.matchesAll. simpl.
    now rewrite Hn.
Qed.

Lemma default_filters_identity_witness :
  filteredDoctors sampleStore sortedByFees
  = Spec.order "fees"
      (filter (fun d =>
                 Spec.matchesConsultationType d ""
                 && Spec.matchesSpecialties d [])
         sampleStore)
  /\ filteredDoctors sampleStore sortedByFees
     = Spec.order "fees"
         (filter (fun d =>
                    Spec.matchesName d "" && Spec.matchesSpecialties d [])
            sampleStore)
  /\ filteredDoctors sampleStore sortedByFees
     = Spec.order "fees"
         (filter (fun d =>
                    Spec.matchesName d ""
                    && Spec.matchesConsultationType d "")
            sampleStore).
Proof.
  pose proof (default_filters_identity sampleStore sortedByFees)
    as (_ & _ & _ & Hname & Htype & Hspecialties & _).
  split; [|split].
  - apply Hname. reflexivity.
  - apply Htype. reflexivity.
  - apply Hspecialties. reflexivity.
Defined.

(** ** The specialty chips *)

Lemma filter_neq_notin (l : list string) (x : string) :
  ~ In x l -> filter (fun s => negb (String.eqb s x)) l = l.
Proof.
  intros H. induction l as [|y l IH]; simpl; [reflexivity|].
  destruct (String.eqb_spec y x) as [E|E]; simpl.
  - exfalso. apply H. left. exact E.
  - f_equal. apply IH. intros Hin. apply H. right. exact Hin.
Qed.

Lemma filter_neq_In (l : list string) (x y : string) :
  In y (filter (fun s => negb (String.eqb s x)) l) <-> In y l /\ y <> x.
Proof.
  rewrite filter_In, negb_true_iff, String.eqb_neq. reflexivity.
Qed.

(** A chip clicked while unselected and clicked again leaves the array as it
    was. *)
Lemma toggle_select_deselect (selected : list string) (x : string) :
  ~ In x selected ->
  toggleSpecialty (toggleSpecialty selected x) x = selected.
Proof.
  intros H.
  assert (E1 : toggleSpecialty selected x = (selected ++ [x])%list).
  { unfold toggleSpecialty.
    destruct (JS.arrayIncludes selected x) eqn:E; [|reflexivity].
    apply arrayIncludes_iff in E. contradiction. }
  rewrite E1. unfold toggleSpecialty.
  assert (E' : JS.arrayIncludes (selected ++ [x]) x = true)
    by (apply arrayIncludes_iff, in_or_app; right; left; reflexivity).
  rewrite E', filter_app, filter_neq_notin by exact H.
  simpl. rewrite String.eqb_refl. simpl. apply app_nil_r.
Qed.

(** A chip clicked while selected and clicked again moves its name to the
    end of the array, once. *)
Lemma toggle_deselect_select (selected : list string) (x : string) :
  In x selected ->
  toggleSpecialty (toggleSpecialty selected x) x
  = (filter (fun s => negb (String.eqb s x)) selected ++ [x])%list.
Proof.
  intros H. apply arrayIncludes_iff in H.
  assert (E1 : toggleSpecialty selected x
               = filter (fun s => negb (String.eqb s x)) selected)
    by (unfold toggleSpecialty; now rewrite H).
  rewrite E1. unfold toggleSpecialty.
  destruct (JS.arrayIncludes
              (filter (fun s => negb (String.eqb s x)) selected) x) eqn:E;
    [|reflexivity].
  apply arrayIncludes_iff, filter_neq_In in E. tauto.
Qed.

Lemma toggle_twice_In (selected : list string) (x y : string) :
  In y (toggleSpecialty (toggleSpecialty selected x) x) <-> In y selected.
Proof.
  destruct (in_dec string_dec x selected) as [H|H].
  - rewrite toggle_deselect_select by exact H.
    rewrite in_app_iff, filter_neq_In. simpl.
    destruct (string_dec y x) as [->|Hne]; [tauto|].
    split; [intros [[? ?]|[?|[]]]; [assumption | congruence] | tauto].
  - now rewrite toggle_select_deselect.
Qed.

Lemma toggle_twice_nil (selected : list string) (x : string) :
  toggleSpecialty (toggleSpecialty selected x) x = [] <-> selected = [].
Proof.
  destruct (in_dec string_dec x selected) as [H|H].
  - rewrite toggle_deselect_select by exact H. split.
    + intros E. apply app_eq_nil in E. destruct E; discriminate.
    + intros E. subst. contradiction.
  - now rewrite toggle_select_deselect.
Qed.

(** The specialty predicate reads the selection only through its emptiness
    and its membership. *)
Lemma matchesSpecialties_ext (d : Doctor.t) (l l' : list string) :
  (l = [] <-> l' = []) -> (forall x, In x l <-> In x l') ->
  Spec.matchesSpecialties d l = Spec.matchesSpecialties d l'.
Proof.
  intros Hnil Hin.
  destruct l as [|a l], l' as [|a' l']; try reflexivity.
  - destruct Hnil as [H _]. discriminate (H eq_refl).
  - destruct Hnil as [_ H]. discriminate (H eq_refl).
  - unfold Spec.matchesSpecialties. apply eq_true_iff_eq.
    rewrite !existsb_exists.
    split; intros [sp [Hsp H]]; exists sp; (split; [exact Hsp|]);
      fold (JS.arrayIncludes (a :: l) (Specialty.name sp)) in *;
      fold (JS.arrayIncludes (a' :: l') (Specialty.name sp)) in *;
      rewrite arrayIncludes_iff in *; apply Hin; exact H.
Qed.

(** C8. Clicking the chip of a specialty twice in a row, whether it was
    selected or not before, gives back the filtered view of before the first
    click, for every store, filter state and specialty name. *)
Theorem toggle_twice_same_view
  (doctors : list Doctor.t) (st : FilterState) (specialty : string) :
  filteredDoctors doctors (clickChip (clickChip st specialty) specialty)
  = filteredDoctors doctors st.
Proof.
  rewrite !filteredDoctors_reduce. unfold Spec.reduce. simpl. f_equal.
  apply filter_ext. intros d. unfold Spec.matchesAll. simpl. f_equal.
  apply matchesSpecialties_ext.
  - apply toggle_twice_nil.
  - intros x. apply toggle_twice_In.
Qed.

(** ** Persistence *)

(** The entries the effect leaves in the fresh [URLSearchParams]. *)
Lemma persist_entries (st : FilterState) :
  persist st
  = ((if JS.truthy (nameFilter st) then [("name", nameFilter st)] else [])
     ++ (if JS.truthy (consultationType st)
         then [("consultationType", consultationType st)] else [])
     ++ (if (0 <? List.length (selectedSpecialties st))%nat
         then [("specialties", JS.join "," (selectedSpecialties st))]
         else [])
     ++ (if JS.truthy (sortBy st) then [("sortBy", sortBy st)] else []))%list.
Proof.
  unfold persist.
  destruct (JS.truthy (nameFilter st)), (JS.truthy (consultationType st)),
    (0 <? List.length (selectedSpecialties st))%nat, (JS.truthy (sortBy st));
    reflexivity.
Qed.

Ltac persist_cases st :=
  rewrite (persist_entries st);
  destruct (JS.truthy (nameFilter st)), (JS.truthy (consultationType st)),
    (0 <? List.length (selectedSpecialties st))%nat, (JS.truthy (sortBy st)).

Lemma get_persist_name (st : FilterState) :
  URLSearchParams.get (persist st) "name"
  = if JS.truthy (nameFilter st) then Some (nameFilter st) else None.
Proof. persist_cases st; reflexivity. Qed.

Lemma get_persist_consultationType (st : FilterState) :
  URLSearchParams.get (persist st) "consultationType"
  = if JS.truthy (consultationType st) then Some (consultationType st)
    else None.
Proof. persist_cases st; reflexivity. Qed.

Lemma get_persist_specialties (st : FilterState) :
  URLSearchParams.get (persist st) "specialties"
  = if (0 <? List.length (selectedSpecialties st))%nat
    then Some (JS.join "," (selectedSpecialties st)) else None.
Proof. persist_cases st; reflexivity. Qed.

Lemma get_persist_sortBy (st : FilterState) :
  URLSearchParams.get (persist st) "sortBy"
  = if JS.truthy (sortBy st) then Some (sortBy st) else None.
Proof. persist_cases st; reflexivity. Qed.

Lemma persist_keys (st : FilterState) (k v : string) :
  In (k, v) (persist st) ->
  k = "name" \/ k = "consultationType" \/ k = "specialties" \/ k = "sortBy".
Proof.
  persist_cases st; simpl; intros H;
    repeat (destruct H as [H|H]; [injection H as <- _; tauto|]);
    contradiction.
Qed.

Lemma persist_NoDup (st : FilterState) : NoDup (map fst (persist st)).
Proof.
  persist_cases st; simpl;
    repeat (constructor; [simpl; intuition discriminate|]); constructor.
Qed.

(** C6. The query string written by the effect holds an entry [name] exactly
    when the name filter is not empty, [consultationType] exactly when the
    consultation type is set, [specialties] (the names joined by commas)
    exactly when some specialty is selected, and [sortBy] exactly when a sort
    key is set; it holds no other entry and none twice. *)
Theorem persist_non_default_fields (st : FilterState) :
  (nameFilter st = "" -> URLSearchParams.get (persist st) "name" = None)
  /\ (nameFilter st <> "" ->
      URLSearchParams.get (persist st) "name" = Some (nameFilter st))
  /\ (consultationType st = "" ->
      URLSearchParams.get (persist st) "consultationType" = None)
  /\ (consultationType st <> "" ->
      URLSearchParams.get (persist st) "consultationType"
      = Some (consultationType st))
  /\ (selectedSpecialties st = [] ->
      URLSearchParams.get (persist st) "specialties" = None)
  /\ (selectedSpecialties st <> [] ->
      URLSearchParams.get (persist st) "specialties"
      = Some (JS.join "," (selectedSpecialties st)))
  /\ (sortBy st = "" -> URLSearchParams.get (persist st) "sortBy" = None)
  /\ (sortBy st <> "" ->
      URLSearchParams.get (persist st) "sortBy" = Some (sortBy st))
  /\ (forall k v, In (k, v) (persist st) ->
        k = "name" \/ k = "consultationType"
        \/ k = "specialties" \/ k = "sortBy")
  /\ NoDup (map fst (persist st)).
Proof.
  rewrite get_persist_name, get_persist_consultationType,
    get_persist_specialties, get_persist_sortBy.
  repeat match goal with
         | |- (_ = "" -> _) /\ _ =>
             split; [intros E; rewrite E; reflexivity|]
         | |- (_ <> "" -> _) /\ _ =>
             split; [intros E; apply truthy_true_iff in E; rewrite E;
                     reflexivity|]
         end.
  split; [intros E; rewrite E; reflexivity|].
  split; [intros E; destruct (selectedSpecialties st);
          [contradiction | reflexivity]|].
  repeat match goal with
         | |- (_ = "" -> _) /\ _ =>
             split; [intros E; rewrite E; reflexivity|]
         | |- (_ <> "" -> _) /\ _ =>
             split; [intros E; apply truthy_true_iff in E; rewrite E;
                     reflexivity|]
         end.
  split; [apply persist_keys | apply persist_NoDup].
Qed.

Lemma persist_non_default_fields_witness :
  URLSearchParams.get (persist sampleState) "name" = Some "dr"
  /\ URLSearchParams.get (persist sampleState) "consultationType"
     = Some "video"
  /\ URLSearchParams.get (persist sampleState) "specialties" = Some "Dentist"
  /\ URLSearchParams.get (persist sampleState) "sortBy" = None.
Proof.
  pose proof (persist_non_default_fields sampleState)
    as (_ & Hname & _ & Htype & _ & Hspecialties & Hsort & _).
  split; [|split; [|split]].
  - apply Hname. discriminate.
  - apply Htype. discriminate.
  - apply Hspecialties. discriminate.
  - apply Hsort. reflexivity.
Defined.

(** ** Splitting and joining on commas *)

Lemma includes_comma_cons (c : ascii) (s : string) :
  JS.includes (String c s) "," = Ascii.eqb c "," || JS.includes s ",".
Proof.
  change (JS.includes (String c s) ",")
    with (prefix "," (String c s) || JS.includes s ",").
  f_equal. cbn [prefix]. destruct (ascii_dec "," c) as [<-|Hne].
  - destruct s; reflexivity.
  - symmetry. apply Ascii.eqb_neq. congruence.
Qed.

Lemma commaFree_cons (c : ascii) (s : string) :
  commaFree (String c s) -> Ascii.eqb c "," = false /\ commaFree s.
Proof.
  unfold commaFree. rewrite includes_comma_cons. apply orb_false_elim.
Qed.

Lemma split_commaFree (s : string) : commaFree s -> JS.split "," s = [s].
Proof.
  induction s as [|c s IH]; intros H; [reflexivity|].
  apply commaFree_cons in H. destruct H as [Hc Hs].
  simpl. rewrite Hc, (IH Hs). reflexivity.
Qed.

Lemma split_app_comma (s r : string) :
  commaFree s -> JS.split "," (s ++ "," ++ r) = s :: JS.split "," r.
Proof.
  induction s as [|c s IH]; intros H; [reflexivity|].
  apply commaFree_cons in H. destruct H as [Hc Hs].
  simpl. rewrite Hc. simpl in IH. rewrite (IH Hs). reflexivity.
Qed.

(** [split] undoes [join] on a non-empty array of comma-free names. *)
Lemma split_join (s : string) (l : list string) :
  Forall commaFree (s :: l) -> JS.split "," (JS.join "," (s :: l)) = s :: l.
Proof.
  revert s; induction l as [|s' l IH]; intros s H.
  - apply split_commaFree. now inversion H.
  - inversion H as [|? ? Hs Hl]; subst.
    change (JS.join "," (s :: s' :: l))
      with (s ++ "," ++ JS.join "," (s' :: l)).
    rewrite split_app_comma by exact Hs. f_equal. apply IH, Hl.
Qed.

Lemma orEmpty_Some (v : string) : JS.orEmpty (Some v) = v.
Proof. destruct v; reflexivity. Qed.

(** ** The round trip through the query string *)

(** C4, as the code has it: a selected specialty whose name holds a comma
    comes back from the query string as two names; on a store with an [Ear]
    specialist the view before persisting is empty and the view after
    hydrating is not. *)
Lemma roundtrip_comma_counterexample :
  selectedSpecialties commaState = ["Ear, Nose and Throat"]
  /\ URLSearchParams.get (persist commaState) "specialties"
     = Some "Ear, Nose and Throat"
  /\ selectedSpecialties (hydrate (persist commaState))
     = ["Ear"; " Nose and Throat"]
  /\ filteredDoctors earStore commaState = []
  /\ filteredDoctors earStore (hydrate (persist commaState)) = earStore.
Proof. repeat split. Qed.

(** C4, amended. For every filter state whose selected specialty names hold
    no comma, persisting the state and hydrating from the query string
    written gives the state back, the default fields being absent from the
    query string and read back as defaults. *)
Theorem hydrate_persist_roundtrip (st : FilterState) :
  Forall commaFree (selectedSpecialties st) -> hydrate (persist st) = st.
Proof.
  intros H. unfold hydrate.
  rewrite get_persist_name, get_persist_consultationType,
    get_persist_specialties, get_persist_sortBy.
  destruct st as [n c sel sb]. simpl in *. f_equal.
  - destruct n; reflexivity.
  - destruct c; reflexivity.
  - destruct sel as [|s l]; [reflexivity|]. apply split_join, H.
  - destruct sb; reflexivity.
Qed.

Lemma hydrate_persist_roundtrip_witness :
  hydrate (persist sampleState) = sampleState.
Proof.
  apply (hydrate_persist_roundtrip sampleState).
  repeat constructor.
Defined.

(** ** Hydration of unrecognised values *)

(** C5, as the code has it: a consultation type or sort key outside the
    enumeration is kept in the state as it stands in the query string, and
    the next persist writes it back. *)
Lemma hydrate_keeps_unrecognised_values :
  consultationType (hydrate [("consultationType", "phone")]) = "phone"
  /\ sortBy (hydrate [("sortBy", "rating")]) = "rating"
  /\ persist (hydrate [("consultationType", "phone"); ("sortBy", "rating")])
     = [("consultationType", "phone"); ("sortBy", "rating")].
Proof. repeat split. Qed.

Lemma filteredDoctors_unrecognised_type
  (doctors : list Doctor.t) (st : FilterState) :
  consultationType st <> "video" -> consultationType st <> "clinic" ->
  filteredDoctors doctors st
  = filteredDoctors doctors (setConsultationType st "").
Proof.
  intros Hv Hc. rewrite !filteredDoctors_reduce. unfold Spec.reduce. simpl.
  f_equal. apply filter_ext. intros d.
  unfold Spec.matchesAll, Spec.matchesConsultationType. simpl.
  apply String.eqb_neq in Hv, Hc. now rewrite Hv, Hc.
Qed.

Lemma filteredDoctors_unrecognised_sort
  (doctors : list Doctor.t) (st : FilterState) :
  sortBy st <> "fees" -> sortBy st <> "experience" ->
  filteredDoctors doctors st = filteredDoctors doctors (setSortBy st "").
Proof.
  intros Hf He. rewrite !filteredDoctors_reduce.
  rewrite !reduce_unsorted; try assumption; try discriminate.
  reflexivity.
Qed.

(** C5, amended. Hydration is total.  A parameter that is absent gives the
    default of its field; a [consultationType] or [sortBy] value that is
    present is kept as it is, recognised or not.  A consultation type other
    than [video] and [clinic], and a sort key other than [fees] and
    [experience], leave the filtered view as it is with the field unset. *)
Theorem hydrate_unrecognised_values
  (searchParams : URLSearchParams.t) (doctors : list Doctor.t) :
  (URLSearchParams.get searchParams "name" = None ->
   nameFilter (hydrate searchParams) = "")
  /\ (URLSearchParams.get searchParams "consultationType" = None ->
      consultationType (hydrate searchParams) = "")
  /\ (URLSearchParams.get searchParams "specialties" = None ->
      selectedSpecialties (hydrate searchParams) = [])
  /\ (URLSearchParams.get searchParams "sortBy" = None ->
      sortBy (hydrate searchParams) = "")
  /\ (forall v, URLSearchParams.get searchParams "consultationType" = Some v ->
                consultationType (hydrate searchParams) = v)
  /\ (forall v, URLSearchParams.get searchParams "sortBy" = Some v ->
                sortBy (hydrate searchParams) = v)
  /\ (consultationType (hydrate searchParams) <> "video" ->
      consultationType (hydrate searchParams) <> "clinic" ->
      filteredDoctors doctors (hydrate searchParams)
      = filteredDoctors doctors
          (setConsultationType (hydrate searchParams) ""))
  /\ (sortBy (hydrate searchParams) <> "fees" ->
      sortBy (hydrate searchParams) <> "experience" ->
      filteredDoctors doctors (hydrate searchParams)
      = filteredDoctors doctors (setSortBy (hydrate searchParams) "")).
Proof.
  repeat split.
  - simpl. now intros ->.
  - simpl. now intros ->.
  - simpl. now intros ->.
  - simpl. now intros ->.
  - simpl. intros v ->. apply orEmpty_Some.
  - simpl. intros v ->. apply orEmpty_Some.
  - apply filteredDoctors_unrecognised_type.
  - apply filteredDoctors_unrecognised_sort.
Qed.

Lemma hydrate_unrecognised_values_witness :
  filteredDoctors sampleStore
    (hydrate [("consultationType", "phone"); ("sortBy", "rating")])
  = filteredDoctors sampleStore
      (setConsultationType
         (hydrate [("consultationType", "phone"); ("sortBy", "rating")]) "")
  /\ filteredDoctors sampleStore
       (hydrate [("consultationType", "phone"); ("sortBy", "rating")])
     = filteredDoctors sampleStore
         (setSortBy
            (hydrate [("consultationType", "phone"); ("sortBy", "rating")])
            "").
Proof.
  pose proof (hydrate_unrecognised_values
                [("consultationType", "phone"); ("sortBy", "rating")]
                sampleStore)
    as (_ & _ & _ & _ & _ & _ & Htype & Hsort).
  split; [apply Htype | apply Hsort]; discriminate.
Defined.

(** ** An empty [specialties] parameter *)

(** C10. When the query string has a [specialties] parameter with the empty
    string as its value, the hydrated selection is the array holding the
    empty string alone, and every record of the filtered view then has a
    specialty whose name is the empty string. *)
Theorem empty_specialties_parameter
  (searchParams : URLSearchParams.t) (doctors : list Doctor.t) :
  URLSearchParams.get searchParams "specialties" = Some "" ->
  selectedSpecialties (hydrate searchParams) = [""]
  /\ forall d, In d (filteredDoctors doctors (hydrate searchParams)) ->
               In d doctors
               /\ exists specialty,
                    In specialty (Doctor.specialities d)
                    /\ Specialty.name specialty = "".
Proof.
  intros H.
  assert (E : selectedSpecialties (hydrate searchParams) = [""])
    by (simpl; now rewrite H).
  split; [exact E|]. intros d Hd.
  rewrite filteredDoctors_reduce in Hd. apply reduce_In in Hd.
  destruct Hd as [Hin Hall]. split; [exact Hin|].
  apply matchesAll_iff in Hall. destruct Hall as (_ & _ & _ & Hs).
  rewrite E in Hs. destruct Hs as [sp [Hsp Hname]]; [discriminate|].
  exists sp. split; [exact Hsp|]. destruct Hname as [Hname|[]]. now symmetry.
Qed.

Lemma empty_specialties_parameter_witness :
  selectedSpecialties (hydrate [("specialties", "")]) = [""]
  /\ forall d, In d (filteredDoctors sampleStore
                       (hydrate [("specialties", "")])) ->
               In d sampleStore
               /\ exists specialty,
                    In specialty (Doctor.specialities d)
                    /\ Specialty.name specialty = "".
Proof.
  apply (empty_specialties_parameter [("specialties", "")] sampleStore).
  reflexivity.
Defined.

(** ** The specialty chips offered *)

Lemma add_In (s : StringSet.t) (value x : string) :
  In x (StringSet.add s value) <-> In x s \/ x = value.
Proof.
  unfold StringSet.add. destruct (JS.arrayIncludes s value) eqn:E.
  - apply arrayIncludes_iff in E. split; [tauto|]. intros [H| ->]; assumption.
  - rewrite in_app_iff. simpl. intuition congruence.
Qed.

Lemma add_NoDup (s : StringSet.t) (value : string) :
  NoDup s -> NoDup (StringSet.add s value).
Proof.
  intros H. unfold StringSet.add.
  destruct (JS.arrayIncludes s value) eqn:E; [exact H|].
  apply NoDup_app; [exact H | repeat constructor; simpl; tauto |].
  intros x Hx [Hv|[]]. subst x.
  apply (arrayIncludes_iff s value) in Hx. congruence.
Qed.

Lemma addAll_In (l : list Specialty.t) (s : StringSet.t) (x : string) :
  In x (fold_left (fun u sp => StringSet.add u (Specialty.name sp)) l s)
  <-> In x s \/ exists sp, In sp l /\ Specialty.name sp = x.
Proof.
  revert s; induction l as [|sp l IH]; intros s; simpl.
  - split; [tauto | intros [H|[sp [[] _]]]; exact H].
  - rewrite IH, add_In. split.
    + intros [[H|H]|[sp' [H1 H2]]]; eauto 6.
    + intros [H|[sp' [[<-|H1] H2]]]; eauto 6.
Qed.

Lemma addAll_NoDup (l : list Specialty.t) (s : StringSet.t) :
  NoDup s ->
  NoDup (fold_left (fun u sp => StringSet.add u (Specialty.name sp)) l s).
Proof.
  revert s; induction l as [|sp l IH]; intros s H; simpl; [exact H|].
  apply IH, add_NoDup, H.
Qed.

Lemma collect_In (doctors : list Doctor.t) (s : StringSet.t) (x : string) :
  In x (fold_left
          (fun u doctor =>
             fold_left (fun u sp => StringSet.add u (Specialty.name sp))
               (Doctor.specialities doctor) u)
          doctors s)
  <-> In x s
      \/ exists d sp, In d doctors /\ In sp (Doctor.specialities d)
                      /\ Specialty.name sp = x.
Proof.
  revert s; induction doctors as [|d doctors IH]; intros s; simpl.
  - split; [tauto | intros [H|(d & sp & [] & _)]; exact H].
  - rewrite IH, addAll_In. split.
    + intros [[H|(sp & H1 & H2)]|(d' & sp & H1 & H2 & H3)]; eauto 8.
    + intros [H|(d' & sp & [<-|H1] & H2 & H3)]; eauto 8.
Qed.

Lemma collect_NoDup (doctors : list Doctor.t) (s : StringSet.t) :
  NoDup s ->
  NoDup (fold_left
           (fun u doctor =>
              fold_left (fun u sp => StringSet.add u (Specialty.name sp))
                (Doctor.specialities doctor) u)
           doctors s).
Proof.
  revert s; induction doctors as [|d doctors IH]; intros s H; simpl;
    [exact H|].
  apply IH, addAll_NoDup, H.
Qed.

Lemma specialties_chip_source (doctors : list Doctor.t) (x : string) :
  In x (specialties doctors)
  <-> exists d specialty,
        In d doctors /\ In specialty (Doctor.specialities d)
        /\ Specialty.name specialty = x.
Proof.
  unfold specialties, StringSet.toArray, StringSet.empty.
  rewrite collect_In. simpl. tauto.
Qed.

(** X1. The chips offered are exactly the specialty names that occur in the
    store, each once: a name is listed when and only when some doctor of the
    store has a specialty of that name, and no name is listed twice. *)
Theorem specialties_unique_complete (doctors : list Doctor.t) :
  NoDup (specialties doctors)
  /\ forall x, In x (specialties doctors)
               <-> exists d specialty,
                     In d doctors /\ In specialty (Doctor.specialities d)
                     /\ Specialty.name specialty = x.
Proof.
  split.
  - unfold specialties, StringSet.toArray, StringSet.empty.
    apply collect_NoDup. constructor.
  - intros x. apply specialties_chip_source.
Qed.

Lemma matchesSpecialties_selected (d : Doctor.t) (selected : list string) :
  selected <> [] ->
  (Spec.matchesSpecialties d selected = true
   <-> exists specialty,
         In specialty (Doctor.specialities d)
         /\ In (Specialty.name specialty) selected).
Proof.
  intros Hne. destruct selected as [|s selected]; [contradiction|].
  unfold Spec.matchesSpecialties. rewrite existsb_exists.
  split; intros [sp [Hin H]]; exists sp; (split; [exact Hin|]);
    fold (JS.arrayIncludes (s :: selected) (Specialty.name sp)) in *;
    rewrite arrayIncludes_iff in *; exact H.
Qed.

Lemma order_nil (sortKey : string) : Spec.order sortKey [] = [].
Proof.
  unfold Spec.order.
  destruct (String.eqb sortKey "fees"); [reflexivity|].
  destruct (String.eqb sortKey "experience"); reflexivity.
Qed.

Lemma order_In (sortKey : string) (l : list Doctor.t) (d : Doctor.t) :
  In d (Spec.order sortKey l) <-> In d l.
Proof.
  unfold Spec.order.
  destruct (String.eqb sortKey "fees"); [apply sort_In|].
  destruct (String.eqb sortKey "experience"); [apply sort_In | reflexivity].
Qed.

Lemma filter_none {A : Type} (f : A -> bool) (l : list A) :
  (forall x, In x l -> f x = false) -> filter f l = [].
Proof.
  induction l as [|x l IH]; intros H; simpl; [reflexivity|].
  rewrite (H x) by (left; reflexivity). apply IH.
  intros y Hy. apply H. right. exact Hy.
Qed.

(** X2. With no name query and no consultation type, selecting one of the
    chips offered, alone, never empties the list: some doctor of the store is
    shown, whatever the sort key. *)
Theorem single_chip_view_not_empty
  (doctors : list Doctor.t) (st : FilterState) (specialty : string) :
  In specialty (specialties doctors) ->
  nameFilter st = "" -> consultationType st = "" ->
  selectedSpecialties st = [specialty] ->
  exists d, In d (filteredDoctors doctors st)
            /\ exists sp, In sp (Doctor.specialities d)
                          /\ Specialty.name sp = specialty.
Proof.
  intros Hin Hn Hc Hs.
  apply specialties_chip_source in Hin.
  destruct Hin as (d & sp & Hd & Hsp & Hname).
  exists d. split; [|exists sp; auto].
  rewrite filteredDoctors_reduce. apply reduce_In. split; [exact Hd|].
  apply matchesAll_iff. rewrite Hn, Hc, Hs.
  split; [intros H; contradiction|].
  split; [discriminate|]. split; [discriminate|].
  intros _. exists sp. split; [exact Hsp|]. left. now symmetry.
Qed.

Lemma single_chip_view_not_empty_witness :
  exists d, In d (filteredDoctors sampleStore
                    (clickChip sortedByFees "Cardiologist"))
            /\ exists sp, In sp (Doctor.specialities d)
                          /\ Specialty.name sp = "Cardiologist".
Proof.
  apply (single_chip_view_not_empty sampleStore
           (clickChip sortedByFees "Cardiologist") "Cardiologist");
    [|reflexivity|reflexivity|reflexivity].
  simpl. tauto.
Defined.

(** X3. When some specialty is selected and none of the selected names
    occurs in the store (a name that came in through the query string, with
    no chip to click it away), the filtered view is empty. *)
Theorem unknown_selection_empty_view
  (doctors : list Doctor.t) (st : FilterState) :
  selectedSpecialties st <> [] ->
  (forall x, In x (selectedSpecialties st) -> ~ In x (specialties doctors)) ->
  filteredDoctors doctors st = [].
Proof.
  intros Hne Hunknown. rewrite filteredDoctors_reduce. unfold Spec.reduce.
  rewrite filter_none; [apply order_nil|].
  intros d Hd. unfold Spec.matchesAll.
  destruct (Spec.matchesSpecialties d (selectedSpecialties st)) eqn:E;
    [|apply andb_false_r].
  exfalso. apply matchesSpecialties_selected in E; [|exact Hne].
  destruct E as [sp [Hsp Hsel]].
  apply (Hunknown _ Hsel). apply specialties_chip_source. eauto.
Qed.

Lemma unknown_selection_empty_view_witness :
  filteredDoctors sampleStore (hydrate [("specialties", "Surgeon")]) = [].
Proof.
  apply (unknown_selection_empty_view sampleStore
           (hydrate [("specialties", "Surgeon")])).
  - discriminate.
  - simpl. intros x [<-|[]] H. intuition discriminate.
Defined.

(** ** What a chip click does *)

Lemma toggle_In (selected : list string) (specialty x : string) :
  In x (toggleSpecialty selected specialty)
  <-> (In x selected /\ x <> specialty)
      \/ (x = specialty /\ ~ In specialty selected).
Proof.
  unfold toggleSpecialty.
  destruct (JS.arrayIncludes selected specialty) eqn:E.
  - apply arrayIncludes_iff in E. rewrite filter_neq_In. tauto.
  - assert (Hn : ~ In specialty selected)
      by (intros H; apply arrayIncludes_iff in H; congruence).
    rewrite in_app_iff. simpl.
    destruct (string_dec x specialty) as [->|Hne]; [tauto|].
    intuition congruence.
Qed.

(** X4. A click on a chip flips that chip between selected and unselected
    and leaves the state of every other chip as it was. *)
Theorem chip_click_flips_one (selected : list string) (specialty : string) :
  JS.arrayIncludes (toggleSpecialty selected specialty) specialty
  = negb (JS.arrayIncludes selected specialty)
  /\ forall other, other <> specialty ->
       JS.arrayIncludes (toggleSpecialty selected specialty) other
       = JS.arrayIncludes selected other.
Proof.
  split.
  - apply eq_true_iff_eq. rewrite negb_true_iff, arrayIncludes_iff, toggle_In.
    destruct (JS.arrayIncludes selected specialty) eqn:E.
    + apply arrayIncludes_iff in E. split; [tauto | discriminate].
    + split; [reflexivity|]. intros _. right. split; [reflexivity|].
      intros H. apply arrayIncludes_iff in H. congruence.
  - intros other Hne. apply eq_true_iff_eq.
    rewrite !arrayIncludes_iff, toggle_In. tauto.
Qed.

Lemma chip_click_flips_one_witness :
  JS.arrayIncludes (toggleSpecialty ["Dentist"; "ENT"] "Dentist") "ENT"
  = JS.arrayIncludes ["Dentist"; "ENT"] "ENT".
Proof.
  apply (proj2 (chip_click_flips_one ["Dentist"; "ENT"] "Dentist")).
  discriminate.
Defined.

Lemma toggle_NoDup (selected : list string) (specialty : string) :
  NoDup selected -> NoDup (toggleSpecialty selected specialty).
Proof.
  intros H. unfold toggleSpecialty.
  destruct (JS.arrayIncludes selected specialty) eqn:E.
  - apply NoDup_filter, H.
  - apply NoDup_app; [exact H | repeat constructor; simpl; tauto |].
    intros x Hx [Hv|[]]. subst x.
    apply (arrayIncludes_iff selected specialty) in Hx. congruence.
Qed.

(** X5. Clicks never put a name into the selection twice: from a selection
    without repeated names, and so from the empty one, every run of chip
    clicks leads to a selection without repeated names. *)
Theorem clicks_keep_selection_duplicate_free
  (selected clicked : list string) :
  NoDup selected -> NoDup (clickChips selected clicked).
Proof.
  unfold clickChips. revert selected.
  induction clicked as [|x clicked IH]; intros selected H; simpl;
    [exact H|].
  apply IH, toggle_NoDup, H.
Qed.

Lemma clicks_keep_selection_duplicate_free_witness :
  NoDup (clickChips [] ["Dentist"; "ENT"; "Dentist"; "ENT"; "ENT"]).
Proof.
  apply (clicks_keep_selection_duplicate_free
           [] ["Dentist"; "ENT"; "Dentist"; "ENT"; "ENT"]).
  constructor.
Defined.

Lemma reduce_incl (doctors : list Doctor.t) (st st' : FilterState) :
  (forall d, In d doctors ->
             Spec.matchesAll st d = true -> Spec.matchesAll st' d = true) ->
  incl (Spec.reduce doctors st) (Spec.reduce doctors st').
Proof.
  intros H d Hd. apply reduce_In in Hd. apply reduce_In.
  destruct Hd as [Hin Hm]. auto.
Qed.

Lemma matchesAll_clickChip (st : FilterState) (specialty : string)
  (d : Doctor.t) :
  Spec.matchesAll (clickChip st specialty) d
  = Spec.matchesName d (nameFilter st)
    && Spec.matchesConsultationType d (consultationType st)
    && Spec.matchesSpecialties d
         (toggleSpecialty (selectedSpecialties st) specialty).
Proof. reflexivity. Qed.

Lemma matchesSpecialties_incl (d : Doctor.t) (l l' : list string) :
  l <> [] -> incl l l' ->
  Spec.matchesSpecialties d l = true -> Spec.matchesSpecialties d l' = true.
Proof.
  intros Hne Hincl H.
  assert (Hne' : l' <> []).
  { destruct l as [|x l]; [contradiction|]. intros E.
    pose proof (Hincl x (or_introl eq_refl)) as Hx.
    rewrite E in Hx. exact Hx. }
  apply matchesSpecialties_selected in H; [|exact Hne].
  apply matchesSpecialties_selected; [exact Hne'|].
  destruct H as [sp [H1 H2]]. exists sp. auto.
Qed.

(** X6. How a chip click moves the filtered view.  Selecting a chip while
    others are selected never removes a record (the selection is a
    disjunction); selecting the first chip, or deselecting one while others
    stay selected, never adds a record; deselecting the last chip never
    removes one. *)
Theorem chip_click_moves_view
  (doctors : list Doctor.t) (st : FilterState) (specialty : string) :
  (selectedSpecialties st <> [] ->
   ~ In specialty (selectedSpecialties st) ->
   incl (filteredDoctors doctors st)
        (filteredDoctors doctors (clickChip st specialty)))
  /\ (selectedSpecialties st = [] ->
      incl (filteredDoctors doctors (clickChip st specialty))
           (filteredDoctors doctors st))
  /\ (In specialty (selectedSpecialties st) ->
      toggleSpecialty (selectedSpecialties st) specialty <> [] ->
      incl (filteredDoctors doctors (clickChip st specialty))
           (filteredDoctors doctors st))
  /\ (In specialty (selectedSpecialties st) ->
      toggleSpecialty (selectedSpecialties st) specialty = [] ->
      incl (filteredDoctors doctors st)
           (filteredDoctors doctors (clickChip st specialty))).
Proof.
  rewrite !filteredDoctors_reduce. split; [|split; [|split]].
  - intros Hne Hnot. apply reduce_incl. intros d _.
    rewrite matchesAll_clickChip. unfold Spec.matchesAll.
    rewrite !andb_true_iff. intros [H12 H3]. split; [exact H12|].
    apply (matchesSpecialties_incl d (selectedSpecialties st));
      [exact Hne| |exact H3].
    intros x Hx. apply toggle_In. left. split; [exact Hx|]. congruence.
  - intros E. apply reduce_incl. intros d _.
    rewrite matchesAll_clickChip. unfold Spec.matchesAll.
    rewrite !andb_true_iff, E. intros [H12 _]. split; [exact H12|].
    reflexivity.
  - intros Hin Hne. apply reduce_incl. intros d _.
    rewrite matchesAll_clickChip. unfold Spec.matchesAll.
    rewrite !andb_true_iff. intros [H12 H3]. split; [exact H12|].
    apply (matchesSpecialties_incl d
             (toggleSpecialty (selectedSpecialties st) specialty));
      [exact Hne| |exact H3].
    intros x Hx. apply toggle_In in Hx. tauto.
  - intros Hin E. apply reduce_incl. intros d _.
    rewrite matchesAll_clickChip. unfold Spec.matchesAll.
    rewrite !andb_true_iff, E. intros [H12 _]. split; [exact H12|].
    reflexivity.
Qed.

Lemma chip_click_moves_view_witness :
  incl (filteredDoctors sampleStore sampleState)
       (filteredDoctors sampleStore (clickChip sampleState "Cardiologist"))
  /\ incl (filteredDoctors sampleStore (clickChip sortedByFees "Dentist"))
          (filteredDoctors sampleStore sortedByFees)
  /\ incl (filteredDoctors sampleStore
             (clickChip (clickChip sampleState "Cardiologist") "Dentist"))
          (filteredDoctors sampleStore
             (clickChip sampleState "Cardiologist"))
  /\ incl (filteredDoctors sampleStore sampleState)
          (filteredDoctors sampleStore (clickChip sampleState "Dentist")).
Proof.
  split; [|split; [|split]].
  - apply (proj1 (chip_click_moves_view
                    sampleStore sampleState "Cardiologist"));
      [discriminate|]. simpl. intuition discriminate.
  - apply (proj1 (proj2 (chip_click_moves_view
                           sampleStore sortedByFees "Dentist"))).
    reflexivity.
  - apply (proj1 (proj2 (proj2 (chip_click_moves_view sampleStore
             (clickChip sampleState "Cardiologist") "Dentist"))));
      [simpl; tauto | discriminate].
  - apply (proj2 (proj2 (proj2 (chip_click_moves_view
                                  sampleStore sampleState "Dentist"))));
      [simpl; tauto | reflexivity].
Defined.

(** ** The name query *)




Lemma lowerChar_idempotent (c : ascii) :
  JS.lowerChar (JS.lowerChar c) = JS.lowerChar c.
Proof.
  destruct c as [[] [] [] [] [] [] [] []]; reflexivity.
Qed.

Lemma toLowerCase_idempotent (s : string) :
  JS.toLowerCase (JS.toLowerCase s) = JS.toLowerCase s.
Proof.
  induction s as [|c s IH]; simpl; [reflexivity|].
  now rewrite lowerChar_idempotent, IH.
Qed.

Lemma toLowerCase_truthy (q q' : string) :
  JS.toLowerCase q = JS.toLowerCase q' -> JS.truthy q = JS.truthy q'.
Proof. destruct q, q'; simpl; intros H; congruence. Qed.

Lemma same_case_same_results
  (doctors : list Doctor.t) (st : FilterState) (q q' : string) :
  JS.toLowerCase q = JS.toLowerCase q' ->
  filteredDoctors doctors (setNameFilter st q)
  = filteredDoctors doctors (setNameFilter st q')
  /\ suggestions doctors q = suggestions doctors q'.
Proof.
  intros E. split.
  - rewrite !filteredDoctors_reduce. unfold Spec.reduce. simpl. f_equal.
    apply filter_ext. intros d.
    unfold Spec.matchesAll, Spec.matchesName. simpl. now rewrite E.
  - unfold suggestions. rewrite (toLowerCase_truthy q q' E).
    destruct (JS.truthy q'); [|reflexivity]. cbn [negb]. do 2 f_equal.
    apply filter_ext. intros d.
    unfold nameMatches, specialtyMatches. now rewrite E.
Qed.

(** X8. The search ignores the letter case of the query: two queries with
    the same lower-case form give the same filtered view and the same
    suggestions, and so does a query and its lower-case form. *)
Theorem query_case_is_ignored
  (doctors : list Doctor.t) (st : FilterState) (q q' : string) :
  (JS.toLowerCase q = JS.toLowerCase q' ->
   filteredDoctors doctors (setNameFilter st q)
   = filteredDoctors doctors (setNameFilter st q')
   /\ suggestions doctors q = suggestions doctors q')
  /\ filteredDoctors doctors (setNameFilter st (JS.toLowerCase q))
     = filteredDoctors doctors (setNameFilter st q)
  /\ suggestions doctors (JS.toLowerCase q) = suggestions doctors q.
Proof.
  split; [apply same_case_same_results|].
  apply same_case_same_results, toLowerCase_idempotent.
Qed.

Lemma query_case_is_ignored_witness :
  filteredDoctors sampleStore (setNameFilter sampleState "ASHA rao")
  = filteredDoctors sampleStore (setNameFilter sampleState "Asha Rao")
  /\ suggestions sampleStore "ASHA rao" = suggestions sampleStore "Asha Rao".
Proof.
  apply (proj1 (query_case_is_ignored
                  sampleStore sampleState "ASHA rao" "Asha Rao")).
  reflexivity.
Defined.

Lemma includes_refl (s : string) : JS.includes s s = true.
Proof.
  apply includes_iff. exists "", "". simpl.
  induction s as [|c s IH]; simpl; congruence.
Qed.

Lemma firstn_sublist {A : Type} (l : list A) :
  forall n, incl (firstn n l) l.
Proof.
  induction l as [|y l IH]; intros [|n] x; simpl; try tauto.
  intros [E|H]; [left; exact E | right; exact (IH n x H)].
Qed.

Lemma suggestions_source (doctors : list Doctor.t) (q : string)
  (option : DoctorSuggestion.t) :
  In option (suggestions doctors q) ->
  exists d, In d doctors /\ toSuggestion d = option.
Proof.
  unfold suggestions. destruct (negb (JS.truthy q)); [intros []|].
  intros H. apply (firstn_sublist _ 5), in_map_iff in H.
  destruct H as [d [E Hd]]. apply filter_In in Hd. exists d. tauto.
Qed.

(** X9. Picking a suggestion searches for that doctor: every option of the
    suggestion list comes from a doctor of the store, and once the option is
    picked that doctor is in the filtered view whenever the consultation
    type and the selected specialties admit them. *)
Theorem picked_suggestion_is_shown
  (doctors : list Doctor.t) (st : FilterState) (q : string)
  (option : DoctorSuggestion.t) :
  In option (suggestions doctors q) ->
  exists d,
    In d doctors /\ toSuggestion d = option
    /\ nameFilter (onChange st (Picked option)) = Doctor.name d
    /\ (Spec.matchesConsultationType d (consultationType st) = true ->
        Spec.matchesSpecialties d (selectedSpecialties st) = true ->
        In d (filteredDoctors doctors (onChange st (Picked option)))).
Proof.
  intros H. apply suggestions_source in H. destruct H as [d [Hd E]].
  exists d. subst option. repeat split; try assumption.
  intros Hc Hs. rewrite filteredDoctors_reduce. apply reduce_In.
  split; [exact Hd|]. unfold Spec.matchesAll. simpl.
  rewrite Hc, Hs. unfold Spec.matchesName. now rewrite includes_refl.
Qed.

Lemma picked_suggestion_is_shown_witness :
  exists d,
    In d sampleStore
    /\ toSuggestion d = toSuggestion (sampleDoctor "Dr. Asha Rao" ["Dentist"]
                                        "500" "5" true false)
    /\ nameFilter
         (onChange sampleState
            (Picked (toSuggestion (sampleDoctor "Dr. Asha Rao" ["Dentist"]
                                     "500" "5" true false))))
       = Doctor.name d
    /\ (Spec.matchesConsultationType d (consultationType sampleState) = true ->
        Spec.matchesSpecialties d (selectedSpecialties sampleState) = true ->
        In d (filteredDoctors sampleStore
                (onChange sampleState
                   (Picked (toSuggestion
                              (sampleDoctor "Dr. Asha Rao" ["Dentist"]
                                 "500" "5" true false)))))).
Proof.
  apply (picked_suggestion_is_shown sampleStore sampleState "dent").
  simpl. tauto.
Defined.

(** ** What sorting does to the view *)

Lemma order_perm (sortKey : string) (l : list Doctor.t) :
  Permutation (Spec.order sortKey l) l.
Proof.
  unfold Spec.order.
  destruct (String.eqb sortKey "fees"); [apply sort_perm|].
  destruct (String.eqb sortKey "experience");
    [apply sort_perm | reflexivity].
Qed.

(** X10. The sort key only reorders the cards: whatever its value,
    recognised or not, the filtered view holds the same records, each as many
    times, as the view with no sort key, so it has as many cards. *)
Theorem sort_key_only_reorders
  (doctors : list Doctor.t) (st : FilterState) (sortKey : string) :
  Permutation (filteredDoctors doctors (setSortBy st sortKey))
              (filteredDoctors doctors (setSortBy st ""))
  /\ List.length (filteredDoctors doctors (setSortBy st sortKey))
     = List.length (filteredDoctors doctors (setSortBy st "")).
Proof.
  assert (H : Permutation (filteredDoctors doctors (setSortBy st sortKey))
                          (filteredDoctors doctors (setSortBy st ""))).
  { rewrite !filteredDoctors_reduce. unfold Spec.reduce. simpl.
    rewrite order_perm. reflexivity. }
  split; [exact H | apply Permutation_length, H].
Qed.

Lemma filter_keeps_keys_distinct {R K : Type} (key : R -> K)
  (keep : R -> bool) :
  forall records : list R,
    NoDup (map key records) -> NoDup (map key (filter keep records)).
Proof.
  intros records. induction records as [|r records IH]; simpl; intros H;
    [constructor|].
  inversion H as [|? ? Hr Hrest]; subst. destruct (keep r); simpl; [|auto].
  constructor; [|auto]. intros Hin. apply Hr.
  apply in_map_iff in Hin. destruct Hin as [r' [E Hr']].
  apply filter_In in Hr'. apply in_map_iff. exists r'. tauto.
Qed.

(** X11. The cards are keyed by doctor id: when the ids of the store are
    pairwise distinct, so are the ids of the filtered view, for every filter
    state, and the view is never longer than the store. *)
Theorem view_ids_stay_unique (doctors : list Doctor.t) (st : FilterState) :
  (NoDup (map Doctor.id doctors) ->
   NoDup (map Doctor.id (filteredDoctors doctors st)))
  /\ (List.length (filteredDoctors doctors st) <= List.length doctors)%nat.
Proof.
  rewrite filteredDoctors_reduce. unfold Spec.reduce. split.
  - intros H.
    apply (Permutation_NoDup
             (l := map Doctor.id (filter (Spec.matchesAll st) doctors))).
    + apply Permutation_map. symmetry. apply order_perm.
    + apply filter_keeps_keys_distinct, H.
  - rewrite (Permutation_length (order_perm _ _)). apply filter_length_le.
Qed.

Lemma view_ids_stay_unique_witness :
  NoDup (map Doctor.id (filteredDoctors sampleStore sortedByFees)).
Proof.
  apply (proj1 (view_ids_stay_unique sampleStore sortedByFees)).
  repeat constructor; simpl; intuition discriminate.
Defined.

(** X12. Ties keep the store order: with sort key [fees] and every fee of
    the store a number in the safe integer range of a double (where equal
    parsed values in the model are equal doubles in the code, and conversely),
    the records of any one fee appear in the view in the order they have in
    the store; likewise for [experience]. *)
Theorem sort_keeps_ties_in_store_order
  (doctors : list Doctor.t) (st : FilterState) (k : Z) :
  (sortBy st = "fees" ->
   Forall (fun d => safeNumber (Doctor.fees d)) doctors ->
   filter (fun d => (numberOr0 (Doctor.fees d) =? k)%Z)
     (filteredDoctors doctors st)
   = filter (fun d => (numberOr0 (Doctor.fees d) =? k)%Z)
       (filter (Spec.matchesAll st) doctors))
  /\ (sortBy st = "experience" ->
      Forall (fun d => safeNumber (Doctor.experience d)) doctors ->
      filter (fun d => (numberOr0 (Doctor.experience d) =? k)%Z)
        (filteredDoctors doctors st)
      = filter (fun d => (numberOr0 (Doctor.experience d) =? k)%Z)
          (filter (Spec.matchesAll st) doctors)).
Proof.
  rewrite filteredDoctors_reduce. unfold Spec.reduce, Spec.order. split.
  - intros E H. rewrite E. simpl.
    apply (sort_stable byFees (fun d => numberOr0 (Doctor.fees d))
             (fun d => JS.parseInt (Doctor.fees d) <> None) byFees_key).
    apply Forall_filter, safe_fees_parse, H.
  - intros E H. rewrite E. simpl.
    assert (Hk : forall d,
               (numberOr0 (Doctor.experience d) =? k)%Z
               = (- numberOr0 (Doctor.experience d) =? - k)%Z)
      by (intros d; apply eq_true_iff_eq; rewrite !Z.eqb_eq; lia).
    rewrite !(filter_ext _ _ Hk).
    apply (sort_stable byExperience
             (fun d => (- numberOr0 (Doctor.experience d))%Z)
             (fun d => JS.parseInt (Doctor.experience d) <> None)
             byExperience_key).
    apply Forall_filter, safe_experience_parse, H.
Qed.

Lemma tieStore_safe :
  Forall (fun d => safeNumber (Doctor.fees d)) tieStore
  /\ Forall (fun d => safeNumber (Doctor.experience d)) tieStore.
Proof.
  unfold tieStore, safeNumber, safeInteger. split;
    repeat (apply Forall_cons;
            [cbv beta; eexists; split; [reflexivity | split; discriminate]|]);
    apply Forall_nil.
Qed.

Example tieStore_views :
  map Doctor.name (filteredDoctors tieStore sortedByFees)
  = ["Dr. Bela Iyer"; "Dr. Asha Rao"; "Dr. Chetan Das"]
  /\ map Doctor.name (filteredDoctors tieStore sortedByExperience)
     = ["Dr. Bela Iyer"; "Dr. Asha Rao"; "Dr. Chetan Das"].
Proof. split; reflexivity. Qed.

Lemma sort_keeps_ties_in_store_order_witness :
  filter (fun d => (numberOr0 (Doctor.fees d) =? 300)%Z)
    (filteredDoctors tieStore sortedByFees)
  = filter (fun d => (numberOr0 (Doctor.fees d) =? 300)%Z)
      (filter (Spec.matchesAll sortedByFees) tieStore)
  /\ filter (fun d => (numberOr0 (Doctor.experience d) =? 9)%Z)
       (filteredDoctors tieStore sortedByExperience)
     = filter (fun d => (numberOr0 (Doctor.experience d) =? 9)%Z)
         (filter (Spec.matchesAll sortedByExperience) tieStore).
Proof.
  split.
  - apply (proj1 (sort_keeps_ties_in_store_order
                    tieStore sortedByFees 300));
      [reflexivity | apply tieStore_safe].
  - apply (proj2 (sort_keeps_ties_in_store_order
                    tieStore sortedByExperience 9));
      [reflexivity | apply tieStore_safe].
Defined.

(** ** Reloading the page: hydrate after persist after hydrate *)

Lemma split_cons (sep : ascii) (s : string) :
  exists w ws, JS.split sep s = w :: ws.
Proof.
  induction s as [|c s [w [ws IH]]]; simpl; [eauto|].
  destruct (Ascii.eqb c sep); [eauto|]. rewrite IH. eauto.
Qed.

Lemma join_cons (x y : string) (l : list string) :
  JS.join "," (x :: y :: l) = x ++ "," ++ JS.join "," (y :: l).
Proof. reflexivity. Qed.

(** [join] undoes [split], for every string. *)
Lemma join_split (v : string) : JS.join "," (JS.split "," v) = v.
Proof.
  induction v as [|c v IH]; [reflexivity|].
  destruct (split_cons "," v) as [w [ws E]].
  cbn [JS.split]. rewrite E in *.
  destruct (Ascii.eqb_spec c ",") as [->|Hne].
  - rewrite join_cons, IH. reflexivity.
  - destruct ws as [|w' ws].
    + change (JS.join "," [w]) with w in IH.
      change (JS.join "," [String c w]) with (String c w). congruence.
    + rewrite join_cons in IH |- *.
      change (String c w ++ "," ++ JS.join "," (w' :: ws))
        with (String c (w ++ "," ++ JS.join "," (w' :: ws))).
      congruence.
Qed.

Lemma split_all_commaFree (v : string) : Forall commaFree (JS.split "," v).
Proof.
  induction v as [|c v IH]; [repeat constructor|].
  destruct (split_cons "," v) as [w [ws E]].
  cbn [JS.split]. rewrite E in *. inversion IH as [|? ? Hw Hws]; subst.
  destruct (Ascii.eqb c ",") eqn:Ec.
  - constructor; [reflexivity | constructor; assumption].
  - constructor; [|assumption]. unfold commaFree in *.
    rewrite includes_comma_cons, Ec, Hw. reflexivity.
Qed.

Lemma hydrate_persist_commaFree (st : FilterState) :
  Forall commaFree (selectedSpecialties st) -> hydrate (persist st) = st.
Proof.
  intros H. unfold hydrate.
  rewrite get_persist_name, get_persist_consultationType,
    get_persist_specialties, get_persist_sortBy.
  destruct st as [n c sel sb]. simpl in *. f_equal.
  - destruct n; reflexivity.
  - destruct c; reflexivity.
  - destruct sel as [|s l]; [reflexivity|]. apply split_join, H.
  - destruct sb; reflexivity.
Qed.

Lemma hydrate_selection_commaFree (searchParams : URLSearchParams.t) :
  Forall commaFree (selectedSpecialties (hydrate searchParams)).
Proof.
  simpl. destruct (URLSearchParams.get searchParams "specialties");
    [apply split_all_commaFree | constructor].
Qed.

(** X13. A state read from a query string survives a reload: persisting
    what was hydrated from any query string and hydrating again gives the
    same filter state, with no condition on the query string. *)
Theorem hydrated_state_survives_reload (searchParams : URLSearchParams.t) :
  hydrate (persist (hydrate searchParams)) = hydrate searchParams.
Proof.
  apply hydrate_persist_commaFree, hydrate_selection_commaFree.
Qed.

Lemma truthy_orEmpty (x : option string) :
  JS.truthy (JS.orEmpty x) = match x with
                             | Some v => JS.truthy v
                             | None => false
                             end.
Proof. destruct x as [[|c v]|]; reflexivity. Qed.

(** X14. After hydration the effect rewrites the query string in normal
    form: [name], [consultationType] and [sortBy] keep the first value they
    had unless it was empty, in which case they go; [specialties] keeps its
    first value as it was, the empty one included; every other parameter
    and every repeated one goes. *)
Theorem reload_normalises_query_string (searchParams : URLSearchParams.t) :
  URLSearchParams.get (persist (hydrate searchParams)) "name"
  = match URLSearchParams.get searchParams "name" with
    | Some v => if JS.truthy v then Some v else None
    | None => None
    end
  /\ URLSearchParams.get (persist (hydrate searchParams)) "consultationType"
     = match URLSearchParams.get searchParams "consultationType" with
       | Some v => if JS.truthy v then Some v else None
       | None => None
       end
  /\ URLSearchParams.get (persist (hydrate searchParams)) "specialties"
     = URLSearchParams.get searchParams "specialties"
  /\ URLSearchParams.get (persist (hydrate searchParams)) "sortBy"
     = match URLSearchParams.get searchParams "sortBy" with
       | Some v => if JS.truthy v then Some v else None
       | None => None
       end
  /\ (forall k v, In (k, v) (persist (hydrate searchParams)) ->
        k = "name" \/ k = "consultationType"
        \/ k = "specialties" \/ k = "sortBy")
  /\ NoDup (map fst (persist (hydrate searchParams))).
Proof.
  rewrite get_persist_name, get_persist_consultationType,
    get_persist_specialties, get_persist_sortBy.
  cbn [hydrate nameFilter consultationType selectedSpecialties sortBy].
  rewrite !truthy_orEmpty.
  split; [|split; [|split; [|split; [|split]]]].
  - destruct (URLSearchParams.get searchParams "name") as [[|c v]|];
      reflexivity.
  - destruct (URLSearchParams.get searchParams "consultationType")
      as [[|c v]|]; reflexivity.
  - destruct (URLSearchParams.get searchParams "specialties") as [v|];
      [|reflexivity].
    destruct (split_cons "," v) as [w [ws E]].
    rewrite <- (join_split v) at 3. now rewrite E.
  - destruct (URLSearchParams.get searchParams "sortBy") as [[|c v]|];
      reflexivity.
  - apply persist_keys.
  - apply persist_NoDup.
Qed.

Lemma persist_ext (st st' : FilterState) :
  nameFilter st = nameFilter st' ->
  consultationType st = consultationType st' ->
  sortBy st = sortBy st' ->
  (selectedSpecialties st = [] <-> selectedSpecialties st' = []) ->
  JS.join "," (selectedSpecialties st) = JS.join "," (selectedSpecialties st')
  ->
  persist st = persist st'.
Proof.
  intros Hn Hc Hs Hnil Hj. rewrite !persist_entries, Hn, Hc, Hs, Hj.
  do 2 f_equal.
  destruct (selectedSpecialties st) as [|x l],
           (selectedSpecialties st') as [|x' l']; try reflexivity.
  - destruct Hnil as [H _]. discriminate (H eq_refl).
  - destruct Hnil as [_ H]. discriminate (H eq_refl).
Qed.

(** X15. The query string is stable from the first write on, for every
    filter state, also one whose specialty names hold commas: persisting the
    state hydrated from a persisted query string writes the same query
    string again. *)
Theorem persisted_query_string_is_stable (st : FilterState) :
  persist (hydrate (persist st)) = persist st.
Proof.
  apply persist_ext; unfold hydrate;
    cbn [nameFilter consultationType selectedSpecialties sortBy];
    rewrite ?get_persist_name, ?get_persist_consultationType,
      ?get_persist_specialties, ?get_persist_sortBy.
  - destruct (nameFilter st); reflexivity.
  - destruct (consultationType st); reflexivity.
  - destruct (sortBy st); reflexivity.
  - destruct (selectedSpecialties st) as [|x l]; [tauto|].
    cbn [List.length Nat.ltb Nat.leb].
    destruct (split_cons "," (JS.join "," (x :: l))) as [w [ws E]].
    rewrite E. split; discriminate.
  - destruct (selectedSpecialties st) as [|x l]; [reflexivity|].
    cbn [List.length Nat.ltb Nat.leb]. apply join_split.
Qed.

(** X16. Hydration never yields a specialty name with a comma in it, and it
    yields the empty selection exactly when the query string has no
    [specialties] parameter. *)
Theorem hydrated_selection_shape (searchParams : URLSearchParams.t) :
  Forall commaFree (selectedSpecialties (hydrate searchParams))
  /\ (selectedSpecialties (hydrate searchParams) = []
      <-> URLSearchParams.get searchParams "specialties" = None).
Proof.
  split; [apply hydrate_selection_commaFree|]. simpl.
  destruct (URLSearchParams.get searchParams "specialties") as [v|];
    [|tauto].
  destruct (split_cons "," v) as [w [ws E]]. rewrite E.
  split; discriminate.
Qed.

(** ** Cards, suggestions and the consultation type *)




(** X18. Choosing a consultation type only narrows: whatever value the
    field takes, every record of the view is in the view with the field
    unset; and the views for [video] and for [clinic] hold exactly the
    records of that unset view that offer video, respectively in-clinic,
    consultation. *)
Theorem consultation_type_narrows
  (doctors : list Doctor.t) (st : FilterState) (type : string) :
  incl (filteredDoctors doctors (setConsultationType st type))
       (filteredDoctors doctors (setConsultationType st ""))
  /\ (forall d, In d (filteredDoctors doctors (setConsultationType st "video"))
                <-> In d (filteredDoctors doctors (setConsultationType st ""))
                    /\ Doctor.video_consult d = true)
  /\ (forall d, In d (filteredDoctors doctors (setConsultationType st "clinic"))
                <-> In d (filteredDoctors doctors (setConsultationType st ""))
                    /\ Doctor.in_clinic d = true).
Proof.
  rewrite !filteredDoctors_reduce. split; [|split].
  - apply reduce_incl. intros d _. unfold Spec.matchesAll. simpl.
    rewrite !andb_true_iff. intros [[Hn _] Hs]. auto.
  - intros d. rewrite !reduce_In. unfold Spec.matchesAll. simpl.
    rewrite !andb_true_iff. change (Spec.matchesConsultationType d "video")
      with (Doctor.video_consult d).
    change (Spec.matchesConsultationType d "") with true. tauto.
  - intros d. rewrite !reduce_In. unfold Spec.matchesAll. simpl.
    rewrite !andb_true_iff. change (Spec.matchesConsultationType d "clinic")
      with (Doctor.in_clinic d).
    change (Spec.matchesConsultationType d "") with true. tauto.
Qed.

(** ** Test ids of the chips *)

Lemma noWhiteSpace_replace (inRun : bool) (s : string) :
  noWhiteSpace (replaceWhiteSpaceRuns inRun s) = true.
Proof.
  revert inRun; induction s as [|c s IH]; intros inRun; [reflexivity|].
  cbn [replaceWhiteSpaceRuns].
  destruct (JS.isWhiteSpace c) eqn:E.
  - destruct inRun; [apply IH|]. cbn [noWhiteSpace].
    change (JS.isWhiteSpace "-") with false. apply IH.
  - cbn [noWhiteSpace]. now rewrite E, IH.
Qed.

Lemma replace_noWhiteSpace (s : string) :
  noWhiteSpace s = true -> replaceWhiteSpaceRuns false s = s.
Proof.
  induction s as [|c s IH]; [reflexivity|]. cbn [noWhiteSpace].
  rewrite andb_true_iff, negb_true_iff. intros [Hc Hs].
  cbn [replaceWhiteSpaceRuns]. now rewrite Hc, (IH Hs).
Qed.

Lemma noWhiteSpace_app (a b : string) :
  noWhiteSpace (a ++ b) = noWhiteSpace a && noWhiteSpace b.
Proof.
  induction a as [|c a IH]; [reflexivity|]. cbn [append noWhiteSpace].
  now rewrite IH, andb_assoc.
Qed.

Example chipTestId_examples :
  chipTestId "General  Physician" = "filter-specialty-General-Physician"
  /\ chipTestId "ENT" = "filter-specialty-ENT"
  /\ chipTestId " Ear Nose " = "filter-specialty--Ear-Nose-".
Proof. repeat split. Qed.

(** X19. The test id of a specialty chip never holds white space; it is
    the prefix followed by the specialty name itself when the name holds
    none, and rewriting it again changes nothing. *)
Theorem chip_test_id_has_no_white_space (specialty : string) :
  noWhiteSpace (chipTestId specialty) = true
  /\ (noWhiteSpace specialty = true ->
      chipTestId specialty = "filter-specialty-" ++ specialty)
  /\ replaceWhiteSpaceRuns false (replaceWhiteSpaceRuns false specialty)
     = replaceWhiteSpaceRuns false specialty.
Proof.
  split; [|split].
  - unfold chipTestId. rewrite noWhiteSpace_app, noWhiteSpace_replace.
    reflexivity.
  - intros H. unfold chipTestId. now rewrite replace_noWhiteSpace.
  - apply replace_noWhiteSpace, noWhiteSpace_replace.
Qed.

Lemma chip_test_id_has_no_white_space_witness :
  chipTestId "Dentist" = "filter-specialty-" ++ "Dentist".
Proof.
  apply (proj1 (proj2 (chip_test_id_has_no_white_space "Dentist"))).
  reflexivity.
Defined.
